(** * Reservation admission core of the ReservePTY API

    A shallow embedding of the two reservation-writing handlers of
    [src/server.js],

      - [POST  /api/reservations]            (lines 349-400), and
      - [PATCH /api/reservations/:id/cancel] (lines 403-422),

    over the tables declared in [src/init-db.js], followed by the
    properties of the admission rules.

    Conventions of the model.
      - A table with a [UUID PRIMARY KEY] is a finite map from the key to
        the remaining columns of the row.
      - An id is a number.  The UUIDs are the numbers of 128 bits; a
        larger number stands for an id string sent by a client that is
        not a UUID, which the datastore refuses to compare with a [UUID]
        column.
      - A timestamp is an integer count of milliseconds.  The [startDate]
        and [endDate] of a request body are timestamps for the datastore
        cast [$n::timestamp]; what [new Date(startDate)] makes of the same
        text is a separate field of the request, and may be no date.
      - [Math.ceil] of the quotient is computed exactly.
      - What the environment supplies to a handler run (the value drawn by
        [uuidv4()], the reading of [new Date()], the datastore's [NOW()])
        is part of the run's input. *)

From stdpp Require Import gmap strings list fin_maps pretty sorting.
From Stdlib Require Import ZArith Lia.

Open Scope Z_scope.

(** ** Data model ([src/init-db.js]) *)

Abbreviation uuid := N.
Abbreviation timestamp := Z.

(** The values of type [UUID] among the ids. *)
Definition is_uuid (id : uuid) : bool := (id <? 2 ^ 128)%N.

(** What reaches the datastore for a [JSONB] column: a null, a text that
    is JSON, or a text that is not, which the column refuses. *)
Inductive jsonb_param :=
| JsonNull
| JsonText (text : string)
| NotJson (text : string).

Definition jsonb_accepted (p : jsonb_param) : bool :=
  match p with NotJson _ => false | _ => true end.

(** The value the column then holds. *)
Definition jsonb_stored (p : jsonb_param) : option string :=
  match p with JsonText s => Some s | _ => None end.

(** The string has a NUL character, which no text column takes. *)
Fixpoint has_nul (s : string) : bool :=
  match s with
  | EmptyString => false
  | String c s' => (Ascii.N_of_ascii c =? 0)%N || has_nul s'
  end.

Definition text_accepted (o : option string) : bool :=
  match o with Some s => negb (has_nul s) | None => true end.

(** [status VARCHAR(50) CHECK (status IN (...))] of table [reservations]. *)
Inductive status := pending | confirmed | active | completed | cancelled.

#[global] Instance status_eq_dec : EqDecision status.
Proof. solve_decision. Defined.

(** [type VARCHAR(50) CHECK (type IN (...))] of table [assets]. *)
Inductive asset_type := plane | boat | home | vehicle.

(** A row of [assets], without its key. [family_id] is [NOT NULL]. *)
Record asset := {
  asset_family_id : uuid;
  asset_name : string;
  asset_kind : asset_type
}.

(** The columns of a [users] row that the handlers read from [req.user].
    [family_id] and [tier] are nullable columns. *)
Record user := {
  user_id : uuid;
  user_family_id : option uuid;
  user_tier : option Z
}.

(** A row of [reservations], without its key. *)
Record reservation := {
  res_asset_id : uuid;
  res_user_id : uuid;
  res_start_date : timestamp;
  res_end_date : timestamp;
  res_status : status;
  res_notes : option string;
  res_metadata : option string;
  res_created_at : timestamp;
  res_updated_at : timestamp
}.

(** The part of the database the two handlers touch. *)
Record db := {
  assets : gmap N asset;
  reservations : gmap N reservation
}.

Definition with_reservations (st : db) (m : gmap N reservation) : db :=
  {| assets := assets st; reservations := m |}.

(** What [res.status(..).json(..)] sends: a reservation row, or an error
    object under an HTTP status code. *)
Inductive response :=
| Json (id : uuid) (row : reservation)
| Error (code : Z) (message : string).

(** ** The datastore's operators *)

(** [(ts1, te1) OVERLAPS (ts2, te2)] on timestamps that are not null, as
    PostgreSQL evaluates it: each pair is put in order, then the later
    start is compared strictly with the other pair's end; equal starts
    always overlap. *)
Definition overlaps_timestamp (ts1 te1 ts2 te2 : timestamp) : bool :=
  let '(ts1, te1) := if ts1 >? te1 then (te1, ts1) else (ts1, te1) in
  let '(ts2, te2) := if ts2 >? te2 then (te2, ts2) else (ts2, te2) in
  if ts1 >? ts2 then ts1 <? te2
  else if ts1 <? ts2 then ts2 <? te1
  else true.

(** [SELECT * FROM assets WHERE id = $1 AND family_id = $2].  The second
    parameter is [req.user.family_id]; with a null there, [family_id = $2]
    holds of no row.  These are the rows of the query when it runs; on an
    [$1] that is not a UUID it throws instead, which the handlers account
    for where they find no row. *)
Definition assetResult (st : db) (assetId : uuid) (family_id : option uuid)
  : option asset :=
  match assets st !! assetId with
  | Some a =>
      if decide (Some (asset_family_id a) = family_id) then Some a else None
  | None => None
  end.

(** The [WHERE] clause of the conflict query, on one row. *)
Definition conflict_row (assetId : uuid) (startDate endDate : timestamp)
    (r : reservation) : bool :=
  bool_decide (res_asset_id r = assetId)
  && negb (bool_decide (res_status r = cancelled))
  && overlaps_timestamp (res_start_date r) (res_end_date r) startDate endDate.

(** [SELECT id FROM reservations WHERE asset_id = $1
      AND status != 'cancelled'
      AND (start_date, end_date) OVERLAPS ($2::timestamp, $3::timestamp)]. *)
Definition conflictResult (st : db) (assetId : uuid)
    (startDate endDate : timestamp) : gmap N reservation :=
  filter (λ kv, conflict_row assetId startDate endDate kv.2 = true)
         (reservations st).

(** [INSERT INTO reservations ... RETURNING *]: refused when the id is
    not a UUID or is taken, when [metadata] is not JSON, and when [notes]
    has a NUL character. *)
Definition insert_reservation (id : uuid) (row : reservation)
    (metadata : jsonb_param) (st : db) : option db :=
  if is_uuid id && jsonb_accepted metadata && text_accepted (res_notes row)
  then
    match reservations st !! id with
    | Some _ => None
    | None => Some (with_reservations st (<[id := row]> (reservations st)))
    end
  else None.

(** ** [POST /api/reservations] *)

(** [req.body] after destructuring, with [req.user] and the environment's
    contributions to one run of the handler. *)
Record request := {
  req_user : user;
  assetId : uuid;
  startDate : timestamp;
  endDate : timestamp;
  startDate_js : option Z;  (* the instant [new Date] reads in the text
                               of [startDate], if it reads one *)
  notes : option string;
  metadata : jsonb_param;
  uuidv4 : uuid;          (* the value [uuidv4()] returns *)
  clock : timestamp;      (* the value of [new Date()] *)
  db_now : timestamp      (* the datastore's [NOW()] *)
}.

Definition ms_per_day : Z := 1000 * 60 * 60 * 24.

(** [Math.ceil(x / d)] for integers [x] and [d]. *)
Definition ceil_div (x d : Z) : Z := - ((- x) / d).

(** [new Date(x)]: the time value, or [None] for an Invalid Date, which
    is what a text that is no date gives, and an instant more than
    8.64e15 ms from the epoch. *)
Definition js_Date (instant : option Z) : option Z :=
  match instant with
  | Some t => if Z.abs t <=? 8640000000000000 then Some t else None
  | None => None
  end.

(** [Math.ceil((new Date(startDate) - new Date()) / (1000*60*60*24))],
    [None] standing for [NaN]. *)
Definition daysAhead (rq : request) : option Z :=
  match js_Date (startDate_js rq) with
  | Some t => Some (ceil_div (t - clock rq) ms_per_day)
  | None => None
  end.

(** [daysAhead > maxDaysAhead]; a comparison with [NaN] is false. *)
Definition exceeds (days : option Z) (limit : Z) : bool :=
  match days with
  | Some d => d >? limit
  | None => false
  end.

(** [req.user.tier - 1]; [null - 1] is [-1]. *)
Definition tier_index (tier : option Z) : Z :=
  match tier with Some t => t - 1 | None => -1 end.

(** [xs[i]] in JavaScript, [None] standing for [undefined]. *)
Definition js_index (xs : list Z) (i : Z) : option Z :=
  if i <? 0 then None else xs !! Z.to_nat i.

(** [v || d] on a number or [undefined]. *)
Definition js_or (v : option Z) (d : Z) : Z :=
  match v with
  | Some n => if n =? 0 then d else n
  | None => d
  end.

(** [[365, 180, 90, 30][req.user.tier - 1] || 30]. *)
Definition maxDaysAhead (tier : option Z) : Z :=
  js_or (js_index [365; 180; 90; 30] (tier_index tier)) 30.

(** [${req.user.tier}] in a template literal. *)
Definition show_tier (tier : option Z) : string :=
  match tier with Some t => pretty t | None => "null" end.

(** [`Tier ${req.user.tier} members can only book ${maxDaysAhead} days in
    advance`]. *)
Definition tier_message (tier : option Z) (limit : Z) : string :=
  "Tier " +:+ show_tier tier +:+ " members can only book "
  +:+ pretty limit +:+ " days in advance".

(** The row the [INSERT] writes: status ['confirmed'], [created_at] given
    as [NOW()], [updated_at] left to its default [NOW()]. *)
Definition new_row (rq : request) : reservation :=
  {| res_asset_id := assetId rq;
     res_user_id := user_id (req_user rq);
     res_start_date := startDate rq;
     res_end_date := endDate rq;
     res_status := confirmed;
     res_notes := notes rq;
     res_metadata := jsonb_stored (metadata rq);
     res_created_at := db_now rq;
     res_updated_at := db_now rq |}.

(** The handler.  An [assetId] that is not a UUID names no row, every
    key being one ([uuid_keys]); the asset query then fails on it, and
    the [catch] answers 500. *)
Definition createReservation (rq : request) (st : db) : response * db :=
  match assetResult st (assetId rq) (user_family_id (req_user rq)) with
  | None =>
      if is_uuid (assetId rq)
      then (Error 404 "Asset not found", st)
      else (Error 500 "Failed to create reservation", st)
  | Some _ =>
      if (0 <? size (conflictResult st (assetId rq) (startDate rq) (endDate rq)))%nat
      then (Error 409 "Time slot conflicts with existing reservation", st)
      else
        let tier := user_tier (req_user rq) in
        if exceeds (daysAhead rq) (maxDaysAhead tier)
        then (Error 403 (tier_message tier (maxDaysAhead tier)), st)
        else
          match insert_reservation (uuidv4 rq) (new_row rq) (metadata rq) st with
          | Some st' => (Json (uuidv4 rq) (new_row rq), st')
          | None => (Error 500 "Failed to create reservation", st)
          end
  end.

(** ** [PATCH /api/reservations/:id/cancel] *)

Record cancel_request := {
  cancel_user : user;
  cancel_id : uuid;           (* [req.params.id] *)
  cancel_now : timestamp      (* the datastore's [NOW()] *)
}.

(** [SET status = 'cancelled', updated_at = NOW()]. *)
Definition set_cancelled (now : timestamp) (r : reservation) : reservation :=
  {| res_asset_id := res_asset_id r;
     res_user_id := res_user_id r;
     res_start_date := res_start_date r;
     res_end_date := res_end_date r;
     res_status := cancelled;
     res_notes := res_notes r;
     res_metadata := res_metadata r;
     res_created_at := res_created_at r;
     res_updated_at := now |}.

(** [UPDATE reservations SET ... WHERE id = $1 AND user_id = $2
    RETURNING *], then the [rows.length === 0] test.  An id that is not a
    UUID names no row, every key being one ([uuid_keys]); the [UPDATE]
    then fails on it, and the [catch] answers 500. *)
Definition cancelReservation (cq : cancel_request) (st : db) : response * db :=
  match reservations st !! cancel_id cq with
  | Some r =>
      if decide (res_user_id r = user_id (cancel_user cq)) then
        let r' := set_cancelled (cancel_now cq) r in
        (Json (cancel_id cq) r',
         with_reservations st (<[cancel_id cq := r']> (reservations st)))
      else (Error 404 "Reservation not found or not authorized", st)
  | None =>
      if is_uuid (cancel_id cq)
      then (Error 404 "Reservation not found or not authorized", st)
      else (Error 500 "Failed to cancel reservation", st)
  end.

(** ** The handler as a sequence of datastore round trips

    Each [await pool.query(..)] is one statement run by the datastore on
    its own; the JavaScript between two [await]s runs without
    interruption.  A handler in flight is therefore at one of three
    suspension points, or has responded. *)
Inductive handler :=
| AwaitAssetQuery
| AwaitConflictQuery
| AwaitInsert
| Responded (r : response).

(** One resumption of the handler: the pending statement runs against the
    database, and the handler continues up to its next [await] or to its
    response. *)
Definition handler_step (rq : request) (h : handler) (st : db) : handler * db :=
  match h with
  | AwaitAssetQuery =>
      match assetResult st (assetId rq) (user_family_id (req_user rq)) with
      | None =>
          if is_uuid (assetId rq)
          then (Responded (Error 404 "Asset not found"), st)
          else (Responded (Error 500 "Failed to create reservation"), st)
      | Some _ => (AwaitConflictQuery, st)
      end
  | AwaitConflictQuery =>
      if (0 <? size (conflictResult st (assetId rq) (startDate rq) (endDate rq)))%nat
      then (Responded (Error 409 "Time slot conflicts with existing reservation"), st)
      else
        let tier := user_tier (req_user rq) in
        if exceeds (daysAhead rq) (maxDaysAhead tier)
        then (Responded (Error 403 (tier_message tier (maxDaysAhead tier))), st)
        else (AwaitInsert, st)
  | AwaitInsert =>
      match insert_reservation (uuidv4 rq) (new_row rq) (metadata rq) st with
      | Some st' => (Responded (Json (uuidv4 rq) (new_row rq)), st')
      | None => (Responded (Error 500 "Failed to create reservation"), st)
      end
  | Responded r => (Responded r, st)
  end.

(** Two handlers in flight over one database. *)
Record system := {
  sys_db : db;
  sys_left : handler;
  sys_right : handler
}.

(** The scheduler resumes either handler. *)
Inductive system_step (rq1 rq2 : request) : system → system → Prop :=
| resume_left s h st :
    handler_step rq1 (sys_left s) (sys_db s) = (h, st) →
    system_step rq1 rq2 s {| sys_db := st; sys_left := h; sys_right := sys_right s |}
| resume_right s h st :
    handler_step rq2 (sys_right s) (sys_db s) = (h, st) →
    system_step rq1 rq2 s {| sys_db := st; sys_left := sys_left s; sys_right := h |}.

(** [n] resumptions of one handler, nothing else running in between. *)
Fixpoint run_handler (n : nat) (rq : request) (h : handler) (st : db)
  : handler * db :=
  match n with
  | O => (h, st)
  | S n =>
      let '(h', st') := handler_step rq h st in
      run_handler n rq h' st'
  end.

(** Both handlers are past their conflict query and tier test, and neither
    has issued its insert. *)
Definition both_checked (st : db) : system :=
  {| sys_db := st; sys_left := AwaitInsert; sys_right := AwaitInsert |}.

Definition both_idle (st : db) : system :=
  {| sys_db := st; sys_left := AwaitAssetQuery; sys_right := AwaitAssetQuery |}.

(** ** Sequences of operations *)

Inductive op :=
| Create (rq : request)
| Cancel (cq : cancel_request).

Definition exec (o : op) (st : db) : db :=
  match o with
  | Create rq => (createReservation rq st).2
  | Cancel cq => (cancelReservation cq st).2
  end.

Fixpoint run (ops : list op) (st : db) : db :=
  match ops with
  | [] => st
  | o :: ops => run ops (exec o st)
  end.

(** Every key of the two tables is a UUID, as the column type has it. *)
Definition uuid_keys (st : db) : Prop :=
  (∀ i a, assets st !! i = Some a → is_uuid i = true) ∧
  (∀ i r, reservations st !! i = Some r → is_uuid i = true).

(** ** Predicates of the specification *)

(** The inclusive-endpoint overlap of two intervals, as the specification
    words it: [s1 <= e2 AND s2 <= e1]. *)
Definition inclusive_overlap (s1 e1 s2 e2 : timestamp) : Prop :=
  s1 ≤ e2 ∧ s2 ≤ e1.

(** No two distinct non-cancelled reservations of one asset have
    intervals related by [overlap]. *)
Definition no_double_booking
    (overlap : timestamp → timestamp → timestamp → timestamp → Prop)
    (st : db) : Prop :=
  ∀ i j r1 r2,
    i ≠ j →
    reservations st !! i = Some r1 →
    reservations st !! j = Some r2 →
    res_asset_id r1 = res_asset_id r2 →
    res_status r1 ≠ cancelled →
    res_status r2 ≠ cancelled →
    ¬ overlap (res_start_date r1) (res_end_date r1)
              (res_start_date r2) (res_end_date r2).

(** The datastore's [OVERLAPS] as a relation. *)
Definition sql_overlap (s1 e1 s2 e2 : timestamp) : Prop :=
  overlaps_timestamp s1 e1 s2 e2 = true.

(** Some non-cancelled reservation of the asset is related to the
    requested interval by [overlap]. *)
Definition has_conflict
    (overlap : timestamp → timestamp → timestamp → timestamp → Prop)
    (rq : request) (st : db) : Prop :=
  ∃ i r,
    reservations st !! i = Some r ∧
    res_asset_id r = assetId rq ∧
    res_status r ≠ cancelled ∧
    overlap (startDate rq) (endDate rq) (res_start_date r) (res_end_date r).


(** The response is an error under the given HTTP status code. *)
Definition is_error (code : Z) (r : response) : Prop :=
  ∃ message, r = Error code message.

(** The conflict rule for a notion of overlap: the request is refused
    with 409, the database untouched, exactly when a non-cancelled
    reservation of the asset overlaps the requested interval. *)
Definition conflict_rule
    (overlap : timestamp → timestamp → timestamp → timestamp → Prop)
    (rq : request) (st : db) : Prop :=
  (is_error 409 (createReservation rq st).1 ∧ (createReservation rq st).2 = st)
  ↔ has_conflict overlap rq st.


(** The outcomes, and what each one says about the request. *)
Inductive create_outcome (rq : request) (st : db) : response * db → Prop :=
| out_not_found :
    assetResult st (assetId rq) (user_family_id (req_user rq)) = None →
    is_uuid (assetId rq) = true →
    create_outcome rq st (Error 404 "Asset not found", st)
| out_bad_id :
    assetResult st (assetId rq) (user_family_id (req_user rq)) = None →
    is_uuid (assetId rq) = false →
    create_outcome rq st (Error 500 "Failed to create reservation", st)
| out_conflict :
    is_Some (assetResult st (assetId rq) (user_family_id (req_user rq))) →
    has_conflict sql_overlap rq st →
    create_outcome rq st
      (Error 409 "Time slot conflicts with existing reservation", st)
| out_forbidden d :
    is_Some (assetResult st (assetId rq) (user_family_id (req_user rq))) →
    ¬ has_conflict sql_overlap rq st →
    daysAhead rq = Some d →
    maxDaysAhead (user_tier (req_user rq)) < d →
    create_outcome rq st
      (Error 403 (tier_message (user_tier (req_user rq))
                    (maxDaysAhead (user_tier (req_user rq)))), st)
| out_refused :
    is_Some (assetResult st (assetId rq) (user_family_id (req_user rq))) →
    ¬ has_conflict sql_overlap rq st →
    exceeds (daysAhead rq) (maxDaysAhead (user_tier (req_user rq))) = false →
    insert_reservation (uuidv4 rq) (new_row rq) (metadata rq) st = None →
    create_outcome rq st (Error 500 "Failed to create reservation", st)
| out_admitted :
    is_Some (assetResult st (assetId rq) (user_family_id (req_user rq))) →
    ¬ has_conflict sql_overlap rq st →
    exceeds (daysAhead rq) (maxDaysAhead (user_tier (req_user rq))) = false →
    reservations st !! uuidv4 rq = None →
    is_uuid (uuidv4 rq) = true →
    jsonb_accepted (metadata rq) = true →
    text_accepted (notes rq) = true →
    create_outcome rq st
      (Json (uuidv4 rq) (new_row rq),
       with_reservations st (<[uuidv4 rq := new_row rq]> (reservations st))).

(** ** Sample data *)

Definition day (n : Z) : timestamp := n * ms_per_day.

Definition carlos : user :=
  {| user_id := 1%N; user_family_id := Some 100%N; user_tier := Some 1 |}.
Definition juan : user :=
  {| user_id := 4%N; user_family_id := Some 100%N; user_tier := Some 4 |}.

Definition jet : asset :=
  {| asset_family_id := 100%N; asset_name := "Gulfstream G650"; asset_kind := plane |}.

Definition demo_db : db :=
  {| assets := {[ 10%N := jet ]}; reservations := ∅ |}.

(** A booking of the jet by [u] for [[day s, day e]], drawn id [id], with
    the clocks reading day 0. *)
Definition booking (u : user) (id : uuid) (s e : Z) : request :=
  {| req_user := u; assetId := 10%N;
     startDate := day s; endDate := day e;
     startDate_js := Some (day s);
     notes := None; metadata := JsonNull;
     uuidv4 := id; clock := day 0; db_now := day 0 |}.

(** An id that is not a UUID, as a client may send one. *)
Definition not_a_uuid : uuid := (2 ^ 128)%N.


(** A request for an asset by an id that is not a UUID. *)
Definition stray_booking (u : user) (id : uuid) (s e : Z) : request :=
  {| req_user := u; assetId := not_a_uuid;
     startDate := day s; endDate := day e;
     startDate_js := Some (day s);
     notes := None; metadata := JsonNull;
     uuidv4 := id; clock := day 0; db_now := day 0 |}.

(** A member of another family. *)
Definition outsider : user :=
  {| user_id := 9%N; user_family_id := Some 200%N; user_tier := Some 1 |}.

(** * The other handlers of [src/server.js] *)

(** ** Accounts and the whole store *)

(** A row of [users], without its key.  [avatar_url] is written by no
    handler and [updated_at] is read by none. *)
Record account := {
  acc_email : string;
  acc_password_hash : string;
  acc_name : string;
  acc_family_id : option uuid;
  acc_tier : option Z;
  acc_created_at : timestamp
}.

(** The columns of [assets] beside those of [asset]. *)
Record asset_extra := {
  ax_location : option string;
  ax_image_url : option string;
  ax_metadata : option string;
  ax_created_at : timestamp
}.

(** All four tables the handlers use; the rows of [assets] are split
    between [assets (srv_db _)] and [srv_asset_extra]. *)
Record server := {
  srv_db : db;
  srv_users : gmap N account;
  srv_families : gmap N string;
  srv_asset_extra : gmap N asset_extra
}.

Definition with_db (st : server) (d : db) : server :=
  {| srv_db := d; srv_users := srv_users st;
     srv_families := srv_families st;
     srv_asset_extra := srv_asset_extra st |}.

Definition with_users (st : server) (us : gmap N account) : server :=
  {| srv_db := srv_db st; srv_users := us;
     srv_families := srv_families st;
     srv_asset_extra := srv_asset_extra st |}.

(** [req.user = result.rows[0]], as far as the handlers read it. *)
Definition user_of (id : uuid) (a : account) : user :=
  {| user_id := id; user_family_id := acc_family_id a;
     user_tier := acc_tier a |}.

(** What a handler sends: a body, or an error object under a status
    code. *)
Inductive reply (A : Type) :=
| Sent (body : A)
| Failed (code : Z) (message : string).
Arguments Sent {A} body.
Arguments Failed {A} code message.

(** The number of characters of a string held as UTF-8: the bytes that
    are not continuation bytes [10xxxxxx]. *)
Fixpoint char_length (s : string) : nat :=
  match s with
  | EmptyString => O
  | String c s' =>
      let b := Ascii.N_of_ascii c in
      if (128 <=? b)%N && (b <? 192)%N then char_length s'
      else S (char_length s')
  end.

(** A [VARCHAR(n)] column takes a string of at most [n] characters, none
    of them NUL. *)
Definition fits (n : nat) (s : string) : bool :=
  (char_length s <=? n)%nat && negb (has_nul s).

(** ** The libraries [jsonwebtoken] and [bcryptjs]

    Their functions are taken as given.  Signing and verifying read the
    clock, hashing draws a salt; [None] stands for a thrown error. *)
Class Crypto := {
  jwt_sign : uuid → timestamp → string;
  jwt_verify : string → timestamp → option uuid;
  bcrypt_hash : string → string → string;
  bcrypt_compare : string → string → bool
}.

(** ** The [authenticate] middleware *)

Definition space : Ascii.ascii := Ascii.ascii_of_nat 32.

(** [s.split(' ')]. *)
Fixpoint split_space (s : string) : list string :=
  match s with
  | EmptyString => [EmptyString]
  | String c s' =>
      if Ascii.eqb c space then EmptyString :: split_space s'
      else match split_space s' with
           | w :: ws => String c w :: ws
           | [] => [String c EmptyString]
           end
  end.

(** [req.headers.authorization?.split(' ')[1]], with [None] where
    [!token] holds: no header, no second field, or an empty one. *)
Definition bearer_token (authorization : option string) : option string :=
  match authorization with
  | None => None
  | Some h =>
      match split_space h !! 1%nat with
      | Some t => if decide (t = EmptyString) then None else Some t
      | None => None
      end
  end.

Definition authenticate `{Crypto} (authorization : option string)
    (now : timestamp) (st : server) : reply user :=
  match bearer_token authorization with
  | None => Failed 401 "No token provided"
  | Some token =>
      match jwt_verify token now with
      | None => Failed 401 "Invalid token"
      | Some userId =>
          match srv_users st !! userId with
          | None => Failed 401 "User not found"
          | Some acc => Sent (user_of userId acc)
          end
      end
  end.

(** ** [POST /api/auth/register] *)

(** [SELECT .. FROM users WHERE email = $1]: the rows, and [rows[0]]. *)
Definition users_by_email (st : server) (email : string) : gmap N account :=
  filter (λ kv, acc_email kv.2 = email) (srv_users st).

Definition first_by_email (st : server) (email : string)
  : option (uuid * account) :=
  head (map_to_list (users_by_email st email)).

(** [req.body]; a field that is absent is [None]. *)
Record register_body := {
  reg_email : option string;
  reg_password : option string;
  reg_name : option string;
  reg_familyId : option uuid
}.

(** [{ user: {id, email, name, tier}, token }]. *)
Record register_reply := {
  rr_id : uuid;
  rr_email : string;
  rr_name : string;
  rr_tier : option Z;
  rr_token : string
}.

(** The [INSERT INTO users]: refused on an id that is not a UUID or is
    taken, a missing or overlong [email] or [name], an overlong hash, or a
    [family_id] that names no family. *)
Definition insert_user (id : uuid) (email name : option string)
    (hash : string) (family_id : option uuid) (tier : Z) (now : timestamp)
    (st : server) : option (account * server) :=
  match srv_users st !! id, email, name with
  | None, Some e, Some n =>
      if is_uuid id && fits 255 e && fits 255 n && fits 255 hash
         && bool_decide (1 ≤ tier ≤ 4)
         && match family_id with
            | Some f => bool_decide (is_Some (srv_families st !! f))
            | None => true
            end
      then
        let acc := {| acc_email := e; acc_password_hash := hash;
                      acc_name := n; acc_family_id := family_id;
                      acc_tier := Some tier; acc_created_at := now |} in
        Some (acc, with_users st (<[id := acc]> (srv_users st)))
      else None
  | _, _, _ => None
  end.

(** The handler.  [id] is the value of [uuidv4()], [salt] what
    [bcrypt.hash] draws, [now] the datastore's [NOW()], [iat] the clock
    read by [jwt.sign]. *)
Definition register `{Crypto} (b : register_body) (id : uuid) (salt : string)
    (now iat : timestamp) (st : server) : reply register_reply * server :=
  let existing :=
    match reg_email b with
    | Some e => users_by_email st e
    | None => ∅
    end in
  if (0 <? size existing)%nat
  then (Failed 400 "Email already registered", st)
  else
    match reg_password b with
    | None => (Failed 500 "Registration failed", st)
    | Some password =>
        let hashedPassword := bcrypt_hash password salt in
        match insert_user id (reg_email b) (reg_name b) hashedPassword
                (reg_familyId b) 4 now st with
        | None => (Failed 500 "Registration failed", st)
        | Some (acc, st') =>
            (Sent {| rr_id := id; rr_email := acc_email acc;
                     rr_name := acc_name acc; rr_tier := acc_tier acc;
                     rr_token := jwt_sign id iat |}, st')
        end
    end.

(** ** [POST /api/auth/login] *)

Record login_body := {
  login_email : option string;
  login_password : option string
}.

(** [{ user: {id, email, name, tier, familyId}, token }]. *)
Record login_reply := {
  lr_id : uuid;
  lr_email : string;
  lr_name : string;
  lr_tier : option Z;
  lr_familyId : option uuid;
  lr_token : string
}.

Definition login `{Crypto} (b : login_body) (iat : timestamp) (st : server)
  : reply login_reply :=
  match
    match login_email b with
    | Some e => first_by_email st e
    | None => None
    end
  with
  | None => Failed 401 "Invalid credentials"
  | Some (id, acc) =>
      match login_password b with
      | None => Failed 500 "Login failed"
      | Some password =>
          if bcrypt_compare password (acc_password_hash acc)
          then Sent {| lr_id := id; lr_email := acc_email acc;
                       lr_name := acc_name acc; lr_tier := acc_tier acc;
                       lr_familyId := acc_family_id acc;
                       lr_token := jwt_sign id iat |}
          else Failed 401 "Invalid credentials"
      end
  end.

(** ** [POST /api/assets] *)

(** The [CHECK (type IN ('plane', 'boat', 'home', 'vehicle'))]. *)
Definition asset_type_of_string (s : string) : option asset_type :=
  if decide (s = "plane") then Some plane
  else if decide (s = "boat") then Some boat
  else if decide (s = "home") then Some home
  else if decide (s = "vehicle") then Some vehicle
  else None.

(** [req.body]; a field that is absent is [None]. *)
Record asset_body := {
  ab_name : option string;
  ab_type : option string;
  ab_location : option string;
  ab_imageUrl : option string;
  ab_metadata : jsonb_param
}.

Definition fits_opt (n : nat) (o : option string) : bool :=
  match o with Some s => fits n s | None => true end.

(** The [INSERT INTO assets]: refused on an id that is not a UUID or is
    taken, a null [family_id] or one that names no family, a missing or
    overlong [name], a [type] outside the four, an overlong [location] or
    [image_url], a [metadata] that is not JSON. *)
Definition insert_asset (id : uuid) (family_id : option uuid)
    (b : asset_body) (now : timestamp) (st : server)
  : option (asset * asset_extra * server) :=
  match assets (srv_db st) !! id, family_id, ab_name b, ab_type b with
  | None, Some f, Some n, Some ty =>
      match asset_type_of_string ty with
      | Some k =>
          if is_uuid id && bool_decide (is_Some (srv_families st !! f))
             && fits 255 n && fits_opt 255 (ab_location b)
             && fits_opt 500 (ab_imageUrl b)
             && jsonb_accepted (ab_metadata b)
          then
            let a := {| asset_family_id := f; asset_name := n;
                        asset_kind := k |} in
            let x := {| ax_location := ab_location b;
                        ax_image_url := ab_imageUrl b;
                        ax_metadata := jsonb_stored (ab_metadata b);
                        ax_created_at := now |} in
            Some (a, x,
                  {| srv_db := {| assets := <[id := a]> (assets (srv_db st));
                                  reservations := reservations (srv_db st) |};
                     srv_users := srv_users st;
                     srv_families := srv_families st;
                     srv_asset_extra := <[id := x]> (srv_asset_extra st) |})
          else None
      | None => None
      end
  | _, _, _, _ => None
  end.

(** [req.user.tier > 1]; a null tier compares as 0. *)
Definition tier_above_1 (tier : option Z) : bool :=
  match tier with Some t => t >? 1 | None => false end.

(** The handler; [id] is the value of [uuidv4()], [now] the datastore's
    [NOW()]. *)
Definition createAsset (u : user) (b : asset_body) (id : uuid)
    (now : timestamp) (st : server)
  : reply (uuid * asset * asset_extra) * server :=
  if tier_above_1 (user_tier u)
  then (Failed 403 "Only tier 1 members can create assets", st)
  else
    match insert_asset id (user_family_id u) b now st with
    | Some (a, x, st') => (Sent (id, a, x), st')
    | None => (Failed 500 "Failed to create asset", st)
    end.

(** ** [GET /api/assets/:id] *)

(** As in createReservation, an id that is not a UUID names no row and
    makes the query fail. *)
Definition getAsset (u : user) (id : uuid) (st : server)
  : reply (uuid * asset * option asset_extra) :=
  match assetResult (srv_db st) id (user_family_id u) with
  | None =>
      if is_uuid id then Failed 404 "Asset not found"
      else Failed 500 "Failed to fetch asset"
  | Some a => Sent (id, a, srv_asset_extra st !! id)
  end.

(** ** [GET /api/assets]: the [status] of each row *)

(** The [WHERE] clause of the [current_reservation] subquery on one
    reservation, its [JOIN users] included. *)
Definition occupies (st : server) (now : timestamp) (aid : uuid)
    (r : reservation) : bool :=
  bool_decide (is_Some (srv_users st !! res_user_id r))
  && bool_decide (res_asset_id r = aid)
  && bool_decide (res_status r = active)
  && (res_start_date r <=? now) && (now <=? res_end_date r).

(** The subquery with its [LIMIT 1]. *)
Definition current_reservation (st : server) (now : timestamp) (aid : uuid)
  : option (uuid * reservation) :=
  head (map_to_list
          (filter (λ kv, occupies st now aid kv.2 = true)
                  (reservations (srv_db st)))).

Inductive availability := occupied | available.

(** [asset.current_reservation ? 'occupied' : 'available'], for each
    asset of the requester's family. *)
Definition listed_status (u : user) (now : timestamp) (st : server)
  : gmap N availability :=
  map_imap
    (λ id a,
       if decide (Some (asset_family_id a) = user_family_id u)
       then Some (match current_reservation st now id with
                  | Some _ => occupied
                  | None => available
                  end)
       else None)
    (assets (srv_db st)).

(** ** The queries of the reading handlers

    The three handlers that list reservations run one [SELECT] over
    [reservations r JOIN assets a], two of them also [JOIN users u], under
    a conjunction of comparisons, some of them against numbered
    placeholders [$n] bound to the array [params]. *)

(** A value bound to a placeholder, or held by a column. *)
Inductive value :=
| VNull
| VUuid (u : uuid)
| VText (s : string)
| VTime (t : timestamp).

Definition of_uuid (o : option uuid) : value :=
  match o with Some u => VUuid u | None => VNull end.

Definition of_time (o : option timestamp) : value :=
  match o with Some t => VTime t | None => VNull end.

(** The text of a [status]. *)
Definition status_name (s : status) : string :=
  match s with
  | pending => "pending"
  | confirmed => "confirmed"
  | active => "active"
  | completed => "completed"
  | cancelled => "cancelled"
  end.

(** A row of the join: [r.*], the asset's columns, and [u.name] when
    [users] is joined. *)
Record joined := {
  j_id : uuid;
  j_res : reservation;
  j_asset : asset;
  j_user_name : option string
}.

(** The columns the [WHERE] clauses mention. *)
Inductive column :=
| a_family_id | r_asset_id | r_user_id | r_status
| r_start_date | r_end_date | r_created_at.

Definition column_value (row : joined) (c : column) : value :=
  match c with
  | a_family_id => VUuid (asset_family_id (j_asset row))
  | r_asset_id => VUuid (res_asset_id (j_res row))
  | r_user_id => VUuid (res_user_id (j_res row))
  | r_status => VText (status_name (res_status (j_res row)))
  | r_start_date => VTime (res_start_date (j_res row))
  | r_end_date => VTime (res_end_date (j_res row))
  | r_created_at => VTime (res_created_at (j_res row))
  end.

Inductive comparison := CmpEq | CmpNe | CmpLe | CmpGe | CmpGt.

Inductive operand :=
| Placeholder (n : nat)     (* [$n] *)
| NOW                       (* [NOW()] *)
| Literal (v : value).

(** One conjunct: [column cmp operand]. *)
Record predicate := {
  p_column : column;
  p_cmp : comparison;
  p_operand : operand
}.

(** A comparison holds only of two values of one kind; with a null on
    either side it does not hold. *)
Definition compare_values (c : comparison) (v w : value) : bool :=
  match v, w with
  | VUuid a, VUuid b =>
      match c with
      | CmpEq => bool_decide (a = b)
      | CmpNe => negb (bool_decide (a = b))
      | _ => false
      end
  | VText a, VText b =>
      match c with
      | CmpEq => bool_decide (a = b)
      | CmpNe => negb (bool_decide (a = b))
      | _ => false
      end
  | VTime a, VTime b =>
      match c with
      | CmpEq => a =? b
      | CmpNe => negb (a =? b)
      | CmpLe => a <=? b
      | CmpGe => b <=? a
      | CmpGt => b <? a
      end
  | _, _ => false
  end.

(** [$n] is the [n]-th element of [params], counted from 1. *)
Definition operand_value (params : list value) (now : timestamp)
    (o : operand) : value :=
  match o with
  | Placeholder O => VNull
  | Placeholder (S k) => default VNull (params !! k)
  | NOW => VTime now
  | Literal v => v
  end.

Definition holds (params : list value) (now : timestamp) (row : joined)
    (p : predicate) : bool :=
  compare_values (p_cmp p) (column_value row (p_column p))
    (operand_value params now (p_operand p)).

(** [reservations r JOIN assets a ON r.asset_id = a.id], and with
    [with_users] also [JOIN users u ON r.user_id = u.id]. *)
Definition join_row (with_users : bool) (st : server) (id : uuid)
    (r : reservation) : option joined :=
  match assets (srv_db st) !! res_asset_id r with
  | None => None
  | Some a =>
      if with_users then
        match srv_users st !! res_user_id r with
        | None => None
        | Some acc =>
            Some {| j_id := id; j_res := r; j_asset := a;
                    j_user_name := Some (acc_name acc) |}
        end
      else Some {| j_id := id; j_res := r; j_asset := a;
                   j_user_name := None |}
  end.

(** The rows of the join that pass every conjunct. *)
Definition select (with_users : bool) (query : list predicate)
    (params : list value) (now : timestamp) (st : server) : gmap N joined :=
  filter (λ kv, forallb (holds params now kv.2) query = true)
         (map_imap (join_row with_users st) (reservations (srv_db st))).

Definition starts_no_later (x y : joined) : Prop :=
  res_start_date (j_res x) ≤ res_start_date (j_res y).

#[global] Instance starts_no_later_dec : RelDecision starts_no_later.
Proof. intros x y. unfold starts_no_later. apply _. Defined.

(** [ORDER BY r.start_date ASC] and [DESC]. *)
Definition order_by_start_asc (rows : gmap N joined) : list joined :=
  merge_sort starts_no_later (map_to_list rows).*2.

Definition order_by_start_desc (rows : gmap N joined) : list joined :=
  merge_sort (flip starts_no_later) (map_to_list rows).*2.

(** [if (x)] on a query-string field: absent and empty are falsy. *)
Definition truthy (o : option string) : option string :=
  match o with
  | Some s => if decide (s = EmptyString) then None else Some s
  | None => None
  end.

(** ** [GET /api/reservations] *)

(** [req.query]. *)
Record reservations_query := {
  q_assetId : option uuid;
  q_status : option string;
  q_upcoming : option string
}.

(** The text of the query as a list of conjuncts, built as the handler
    builds it: each [params.push(x)] is followed by a conjunct on
    [$${params.length}]. *)
Definition reservations_sql (u : user) (q : reservations_query)
  : list predicate * list value :=
  let query := [ {| p_column := a_family_id; p_cmp := CmpEq;
                    p_operand := Placeholder 1 |} ] in
  let params := [ of_uuid (user_family_id u) ] in
  let '(query, params) :=
    match q_assetId q with
    | Some assetId =>
        let params := params ++ [VUuid assetId] in
        (query ++ [ {| p_column := r_asset_id; p_cmp := CmpEq;
                       p_operand := Placeholder (length params) |} ],
         params)
    | None => (query, params)
    end in
  let '(query, params) :=
    match truthy (q_status q) with
    | Some status =>
        let params := params ++ [VText status] in
        (query ++ [ {| p_column := r_status; p_cmp := CmpEq;
                       p_operand := Placeholder (length params) |} ],
         params)
    | None => (query, params)
    end in
  let query :=
    if decide (q_upcoming q = Some "true")
    then query ++ [ {| p_column := r_start_date; p_cmp := CmpGe;
                       p_operand := NOW |} ]
    else query in
  (query, params).

Definition listReservations (u : user) (q : reservations_query)
    (now : timestamp) (st : server) : list joined :=
  let '(query, params) := reservations_sql u q in
  order_by_start_asc (select true query params now st).

(** ** [GET /api/reservations/mine] *)

Definition myReservations (u : user) (now : timestamp) (st : server)
  : list joined :=
  order_by_start_desc
    (select false
       [ {| p_column := r_user_id; p_cmp := CmpEq;
            p_operand := Placeholder 1 |} ]
       [ VUuid (user_id u) ] now st).

(** ** [GET /api/calendar] *)

(** [req.query]. *)
Record calendar_query := {
  c_start : option timestamp;
  c_end : option timestamp;
  c_assetId : option uuid
}.

Definition calendar_sql (u : user) (q : calendar_query)
  : list predicate * list value :=
  let query :=
    [ {| p_column := a_family_id; p_cmp := CmpEq;
         p_operand := Placeholder 1 |};
      {| p_column := r_status; p_cmp := CmpNe;
         p_operand := Literal (VText "cancelled") |};
      {| p_column := r_start_date; p_cmp := CmpLe;
         p_operand := Placeholder 3 |};
      {| p_column := r_end_date; p_cmp := CmpGe;
         p_operand := Placeholder 2 |} ] in
  let params :=
    [ of_uuid (user_family_id u); of_time (c_start q); of_time (c_end q) ] in
  match c_assetId q with
  | Some assetId =>
      let params := params ++ [VUuid assetId] in
      (query ++ [ {| p_column := r_asset_id; p_cmp := CmpEq;
                     p_operand := Placeholder (length params) |} ],
       params)
  | None => (query, params)
  end.

(** One element of the response. *)
Record event := {
  ev_id : uuid;
  ev_title : string;
  ev_start : timestamp;
  ev_end : timestamp;
  ev_assetId : uuid;
  ev_assetType : asset_type;
  ev_userId : uuid;
  ev_status : status
}.

(** [`${r.asset_name} - ${r.user_name}`] and the other fields. *)
Definition event_of (row : joined) : event :=
  {| ev_id := j_id row;
     ev_title := asset_name (j_asset row) +:+ " - "
                 +:+ default "undefined" (j_user_name row);
     ev_start := res_start_date (j_res row);
     ev_end := res_end_date (j_res row);
     ev_assetId := res_asset_id (j_res row);
     ev_assetType := asset_kind (j_asset row);
     ev_userId := res_user_id (j_res row);
     ev_status := res_status (j_res row) |}.

Definition calendar (u : user) (q : calendar_query) (now : timestamp)
    (st : server) : list event :=
  let '(query, params) := calendar_sql u q in
  event_of <$> order_by_start_asc (select true query params now st).

(** ** [GET /api/stats] *)

(** The response, each count after [parseInt]. *)
Record stats := {
  totalAssets : nat;
  monthlyReservations : nat;
  familyMembers : nat;
  upcomingReservations : nat
}.

(** [family_id = $1] on the nullable column of [users]. *)
Definition same_family (a b : option uuid) : bool :=
  match a, b with
  | Some x, Some y => bool_decide (x = y)
  | _, _ => false
  end.

(** The four counts.  [month_start] is the datastore's
    [date_trunc('month', NOW())]. *)
Definition getStats (u : user) (now month_start : timestamp) (st : server)
  : stats :=
  let familyId := of_uuid (user_family_id u) in
  {| totalAssets :=
       size (filter (λ kv : N * asset,
                       same_family (Some (asset_family_id kv.2))
                         (user_family_id u) = true)
                    (assets (srv_db st)));
     monthlyReservations :=
       size (select false
               [ {| p_column := a_family_id; p_cmp := CmpEq;
                    p_operand := Placeholder 1 |};
                 {| p_column := r_created_at; p_cmp := CmpGe;
                    p_operand := Literal (VTime month_start) |} ]
               [ familyId ] now st);
     familyMembers :=
       size (filter (λ kv : N * account,
                       same_family (acc_family_id kv.2)
                         (user_family_id u) = true)
                    (srv_users st));
     upcomingReservations :=
       size (select false
               [ {| p_column := a_family_id; p_cmp := CmpEq;
                    p_operand := Placeholder 1 |};
                 {| p_column := r_start_date; p_cmp := CmpGt;
                    p_operand := NOW |};
                 {| p_column := r_status; p_cmp := CmpEq;
                    p_operand := Literal (VText "confirmed") |} ]
               [ familyId ] now st) |}.

(** ** Sessions: the writing handlers run one after the other *)

Inductive action :=
| DoRegister (b : register_body) (id : uuid) (salt : string)
             (now iat : timestamp)
| DoCreateAsset (u : user) (b : asset_body) (id : uuid) (now : timestamp)
| DoReservation (o : op).

Definition perform `{Crypto} (a : action) (st : server) : server :=
  match a with
  | DoRegister b id salt now iat => (register b id salt now iat st).2
  | DoCreateAsset u b id now => (createAsset u b id now st).2
  | DoReservation o => with_db st (exec o (srv_db st))
  end.

Fixpoint perform_all `{Crypto} (l : list action) (st : server) : server :=
  match l with
  | [] => st
  | a :: l => perform_all l (perform a st)
  end.

(** ** Predicates used in the properties of these handlers *)

(** The string contains a space. *)
Fixpoint has_space (s : string) : bool :=
  match s with
  | EmptyString => false
  | String c s' => Ascii.eqb c space || has_space s'
  end.

(** The [UNIQUE] constraint on [users.email]. *)
Definition emails_unique (st : server) : Prop :=
  ∀ i j a b,
    srv_users st !! i = Some a →
    srv_users st !! j = Some b →
    acc_email a = acc_email b →
    i = j.

(** What the filters of [GET /api/reservations] ask of a row: the asset
    is of the requester's family, and each filter that is present and not
    empty is met. *)
Definition reservations_filter (u : user) (q : reservations_query)
    (now : timestamp) (row : joined) : Prop :=
  user_family_id u = Some (asset_family_id (j_asset row)) ∧
  (∀ x, q_assetId q = Some x → res_asset_id (j_res row) = x) ∧
  (∀ s, q_status q = Some s → s ≠ EmptyString →
        status_name (res_status (j_res row)) = s) ∧
  (q_upcoming q = Some "true" → now ≤ res_start_date (j_res row)).

(** What [GET /api/calendar] asks of a row: the asset is of the
    requester's family, the reservation is not cancelled, its interval
    meets the window inclusively, and the asset filter, if present, is
    met. *)
Definition calendar_filter (u : user) (q : calendar_query) (row : joined)
  : Prop :=
  user_family_id u = Some (asset_family_id (j_asset row)) ∧
  res_status (j_res row) ≠ cancelled ∧
  (∃ s e, c_start q = Some s ∧ c_end q = Some e ∧
          inclusive_overlap (res_start_date (j_res row))
            (res_end_date (j_res row)) s e) ∧
  (∀ x, c_assetId q = Some x → res_asset_id (j_res row) = x).

(** The row is the join of the reservation [j_id row] with its asset and,
    when [with_users], its user. *)
Definition is_join (with_users : bool) (st : server) (row : joined) : Prop :=
  ∃ r, reservations (srv_db st) !! j_id row = Some r ∧
       join_row with_users st (j_id row) r = Some row.

(** Every reservation is of an asset on record. *)
Definition reservations_have_assets (d : db) : Prop :=
  ∀ i r, reservations d !! i = Some r → is_Some (assets d !! res_asset_id r).

(** Every reservation is confirmed or cancelled. *)
Definition only_confirmed_or_cancelled (d : db) : Prop :=
  ∀ i r, reservations d !! i = Some r →
         res_status r = confirmed ∨ res_status r = cancelled.

(** ** Sample data for these handlers *)

(** A stand-in for the two libraries, to run the handlers on examples. *)
Definition toy_crypto : Crypto :=
  {| jwt_sign := λ id _, "token-of-" +:+ pretty id;
     jwt_verify := λ t _,
       if decide (t = "token-of-7") then Some 7%N else None;
     bcrypt_hash := λ pw salt, salt +:+ "$" +:+ pw;
     bcrypt_compare := λ pw h, bool_decide (h = "salt$" +:+ pw) |}.

Definition carlos_account : account :=
  {| acc_email := "carlos@mendoza.family";
     acc_password_hash := "salt$demo123";
     acc_name := "Carlos Mendoza";
     acc_family_id := Some 100%N; acc_tier := Some 1;
     acc_created_at := 0 |}.

Definition demo_server : server :=
  {| srv_db := demo_db;
     srv_users := {[ 1%N := carlos_account ]};
     srv_families := {[ 100%N := "Mendoza Family Trust" ]};
     srv_asset_extra := ∅ |}.

Definition ana_body : register_body :=
  {| reg_email := Some "ana@mendoza.family"; reg_password := Some "demo123";
     reg_name := Some "Ana Mendoza"; reg_familyId := Some 100%N |}.

Definition villa_body : asset_body :=
  {| ab_name := Some "Bocas Beach Villa"; ab_type := Some "home";
     ab_location := Some "Bocas del Toro"; ab_imageUrl := None;
     ab_metadata := JsonNull |}.

(** Carlos adds the villa, books the jet, cancels, and Ana registers. *)
Definition demo_session : list action :=
  [ DoCreateAsset carlos villa_body 11%N 0;
    DoReservation (Create (booking carlos 7%N 10 12));
    DoReservation (Cancel {| cancel_user := carlos; cancel_id := 7%N;
                             cancel_now := day 1 |});
    DoReservation (Create (booking carlos 8%N 11 13));
    DoRegister ana_body 9%N "salt" 0 0 ].

(** The store after that session. *)
Definition demo_state : server :=
  @perform_all toy_crypto demo_session demo_server.

(** The store once Ana has registered under the id 7. *)
Definition ana_state : server :=
  (@register toy_crypto ana_body 7%N "salt" 0 0 demo_server).2.

Definition ana : user :=
  {| user_id := 7%N; user_family_id := Some 100%N; user_tier := Some 4 |}.

(** * Properties *)

(** ** The scenarios of the specification *)

(** With the jet booked for days 10 to 12, days 11 to 13 are refused and
    days 13 to 15 are admitted. *)
Example scenario_conflict :
  let st := run [Create (booking carlos 7%N 10 12)] demo_db in
  (createReservation (booking carlos 8%N 11 13) st).1 =
    Error 409 "Time slot conflicts with existing reservation" ∧
  (createReservation (booking carlos 8%N 13 15) st).1 =
    Json 8%N (new_row (booking carlos 8%N 13 15)).
Proof. split; reflexivity. Qed.

(** A tier-4 member is refused 45 days ahead and admitted 20 days ahead. *)
Example scenario_tier :
  (createReservation (booking juan 8%N 45 46) demo_db).1 =
    Error 403 "Tier 4 members can only book 30 days in advance" ∧
  (createReservation (booking juan 8%N 20 21) demo_db).1 =
    Json 8%N (new_row (booking juan 8%N 20 21)).
Proof. split; reflexivity. Qed.

(** A user without a tier is told so, with the default limit. *)
Example scenario_null_tier :
  let nobody := {| user_id := 5%N; user_family_id := Some 100%N;
                   user_tier := None |} in
  (createReservation (booking nobody 8%N 31 32) demo_db).1 =
    Error 403 "Tier null members can only book 30 days in advance".
Proof. reflexivity. Qed.

(** The limit is a ceiling: one millisecond past 30 days is day 31. *)
Example scenario_ceiling :
  let rq := {| req_user := juan; assetId := 10%N;
               startDate := day 30 + 1; endDate := day 40;
               startDate_js := Some (day 30 + 1);
               notes := None; metadata := JsonNull;
               uuidv4 := 8%N; clock := day 0; db_now := day 0 |} in
  daysAhead rq = Some 31 ∧ is_error 403 (createReservation rq demo_db).1.
Proof. split; [reflexivity | by eexists]. Qed.

(** A start that [new Date] cannot read gives [NaN] days ahead, which
    exceeds no limit: the tier-4 member is admitted for a date the
    datastore places 45 days ahead. *)
Example scenario_invalid_date :
  let rq := {| req_user := juan; assetId := 10%N;
               startDate := day 45; endDate := day 46;
               startDate_js := None;
               notes := None; metadata := JsonNull;
               uuidv4 := 8%N; clock := day 0; db_now := day 0 |} in
  daysAhead rq = None ∧
  (createReservation rq demo_db).1 = Json 8%N (new_row rq).
Proof. split; reflexivity. Qed.

(** A reservation of no length blocks a request starting at the same
    instant, and not one that ends there. *)
Example scenario_instant :
  let st := run [Create (booking carlos 7%N 7 7)] demo_db in
  (createReservation (booking carlos 8%N 7 9) st).1 =
    Error 409 "Time slot conflicts with existing reservation" ∧
  (createReservation (booking carlos 8%N 5 7) st).1 =
    Json 8%N (new_row (booking carlos 8%N 5 7)).
Proof. split; reflexivity. Qed.

(** ** Arithmetic of the horizon check *)

Lemma ceil_div_bounds x d :
  0 < d → (ceil_div x d - 1) * d < x ≤ ceil_div x d * d.
Proof.
  intros Hd. unfold ceil_div.
  pose proof (Z.div_mod (- x) d ltac:(lia)) as Hdm.
  pose proof (Z.mod_pos_bound (- x) d Hd) as Hm.
  nia.
Qed.

(** [ceil_div x d] is the least integer [q] with [x <= q * d]. *)
Lemma ceil_div_least x d q : 0 < d → x ≤ q * d ↔ ceil_div x d ≤ q.
Proof.
  intros Hd. pose proof (ceil_div_bounds x d Hd). split; intros; nia.
Qed.





Lemma exceeds_true days limit :
  exceeds days limit = true ↔ ∃ d, days = Some d ∧ limit < d.
Proof.
  unfold exceeds. destruct days as [d|].
  - destruct (Z.gtb_spec d limit); split; try done.
    + eauto.
    + intros (? & [= <-] & ?). lia.
  - split; [done | by intros (? & ? & _)].
Qed.

Lemma exceeds_false days limit :
  exceeds days limit = false ↔ ¬ ∃ d, days = Some d ∧ limit < d.
Proof.
  rewrite <- exceeds_true.
  destruct (exceeds days limit); split; try done; intros H; by destruct H.
Qed.





(** ** The [OVERLAPS] operator *)

(** Case analysis on every integer comparison of the goal. *)
Ltac compare_cases :=
  repeat match goal with
         | |- context [ (?a >? ?b) ] => destruct (Z.gtb_spec a b)
         | |- context [ (?a <? ?b) ] => destruct (Z.ltb_spec a b)
         end.

Lemma overlaps_timestamp_comm s1 e1 s2 e2 :
  overlaps_timestamp s1 e1 s2 e2 = overlaps_timestamp s2 e2 s1 e1.
Proof.
  unfold overlaps_timestamp.
  compare_cases; try reflexivity; lia.
Qed.

(** On ordered pairs: equal starts, or each start strictly before the
    other end. *)
Lemma overlaps_timestamp_ordered s1 e1 s2 e2 :
  s1 ≤ e1 → s2 ≤ e2 →
  overlaps_timestamp s1 e1 s2 e2 = true ↔ s1 = s2 ∨ (s1 < e2 ∧ s2 < e1).
Proof.
  intros H1 H2. unfold overlaps_timestamp.
  compare_cases; split; intros; try done; lia.
Qed.

(** The operator orders each pair before comparing. *)
Lemma overlaps_timestamp_swap_l s1 e1 s2 e2 :
  overlaps_timestamp s1 e1 s2 e2 = overlaps_timestamp e1 s1 s2 e2.
Proof.
  unfold overlaps_timestamp.
  compare_cases; try reflexivity; lia.
Qed.

(** On ordered pairs [OVERLAPS] is included in the inclusive overlap; the
    two differ on intervals that only touch. *)
Lemma overlaps_timestamp_inclusive s1 e1 s2 e2 :
  s1 ≤ e1 → s2 ≤ e2 →
  overlaps_timestamp s1 e1 s2 e2 = true → inclusive_overlap s1 e1 s2 e2.
Proof.
  intros H1 H2 H. apply overlaps_timestamp_ordered in H; [|done..].
  unfold inclusive_overlap. lia.
Qed.

Lemma overlaps_timestamp_touching s m e :
  s < m → m < e → overlaps_timestamp s m m e = false.
Proof.
  intros H1 H2. unfold overlaps_timestamp.
  compare_cases; try reflexivity; lia.
Qed.

(** ** The conflict query *)

Lemma conflict_row_true a s e r :
  conflict_row a s e r = true ↔
  res_asset_id r = a ∧ res_status r ≠ cancelled ∧
  overlaps_timestamp (res_start_date r) (res_end_date r) s e = true.
Proof.
  unfold conflict_row.
  rewrite !andb_true_iff, negb_true_iff, bool_decide_eq_true,
    bool_decide_eq_false.
  tauto.
Qed.

Lemma conflict_query_lookup st a s e i r :
  conflictResult st a s e !! i = Some r ↔
  reservations st !! i = Some r ∧ conflict_row a s e r = true.
Proof. unfold conflictResult. by rewrite map_lookup_filter_Some. Qed.

(** [conflictResult.rows.length > 0] holds exactly when some row passes
    the [WHERE] clause. *)
Lemma conflict_query_nonempty st a s e :
  (0 <? size (conflictResult st a s e))%nat = true ↔
  ∃ i r, reservations st !! i = Some r ∧ conflict_row a s e r = true.
Proof.
  rewrite Nat.ltb_lt. split.
  - intros Hsz.
    destruct (map_choose (conflictResult st a s e)) as (i & r & Hir).
    { intros Hempty. rewrite Hempty, map_size_empty in Hsz. lia. }
    exists i, r. by apply conflict_query_lookup.
  - intros (i & r & Hir).
    apply conflict_query_lookup in Hir.
    destruct (size (conflictResult st a s e)) eqn:Hsz; [|lia].
    apply map_size_empty_iff in Hsz. rewrite Hsz in Hir. done.
Qed.

Lemma conflict_query_has_conflict rq st :
  (0 <? size (conflictResult st (assetId rq) (startDate rq) (endDate rq)))%nat = true
  ↔ has_conflict sql_overlap rq st.
Proof.
  rewrite conflict_query_nonempty. unfold has_conflict, sql_overlap.
  split; intros (i & r & Hi & H); exists i, r; split; try done.
  - apply conflict_row_true in H as (? & ? & ?).
    by rewrite overlaps_timestamp_comm.
  - apply conflict_row_true. destruct H as (? & ? & ?).
    by rewrite overlaps_timestamp_comm.
Qed.

Lemma conflict_query_empty rq st :
  (0 <? size (conflictResult st (assetId rq) (startDate rq) (endDate rq)))%nat = false
  ↔ ¬ has_conflict sql_overlap rq st.
Proof.
  rewrite <- conflict_query_has_conflict.
  destruct (0 <? size _)%nat; split; intros; try done; congruence.
Qed.

(** ** Outcomes of [createReservation] *)

(** The asset query finds a row exactly when the id names an asset of the
    requester's family. *)
Lemma assetResult_Some st a fam :
  is_Some (assetResult st a fam) ↔
  ∃ row, assets st !! a = Some row ∧ fam = Some (asset_family_id row).
Proof.
  unfold assetResult. split.
  - intros [x Hx]. destruct (assets st !! a) as [row|]; [|done].
    case_decide; [|done]. eauto.
  - intros (row & -> & ->). rewrite decide_True by done. eauto.
Qed.

Lemma assetResult_None st a fam :
  assetResult st a fam = None ↔
  ¬ ∃ row, assets st !! a = Some row ∧ fam = Some (asset_family_id row).
Proof.
  rewrite <- assetResult_Some, <- eq_None_not_Some. done.
Qed.

Lemma create_not_found rq st :
  assetResult st (assetId rq) (user_family_id (req_user rq)) = None →
  is_uuid (assetId rq) = true →
  createReservation rq st = (Error 404 "Asset not found", st).
Proof. intros H Hu. unfold createReservation. by rewrite H, Hu. Qed.

Lemma create_bad_id rq st :
  assetResult st (assetId rq) (user_family_id (req_user rq)) = None →
  is_uuid (assetId rq) = false →
  createReservation rq st = (Error 500 "Failed to create reservation", st).
Proof. intros H Hu. unfold createReservation. by rewrite H, Hu. Qed.

Lemma create_conflict rq st :
  is_Some (assetResult st (assetId rq) (user_family_id (req_user rq))) →
  has_conflict sql_overlap rq st →
  createReservation rq st =
    (Error 409 "Time slot conflicts with existing reservation", st).
Proof.
  intros [a Ha] Hc. apply conflict_query_has_conflict in Hc.
  unfold createReservation. by rewrite Ha, Hc.
Qed.

Lemma create_forbidden rq st d :
  is_Some (assetResult st (assetId rq) (user_family_id (req_user rq))) →
  ¬ has_conflict sql_overlap rq st →
  daysAhead rq = Some d →
  maxDaysAhead (user_tier (req_user rq)) < d →
  createReservation rq st =
    (Error 403 (tier_message (user_tier (req_user rq))
                  (maxDaysAhead (user_tier (req_user rq)))), st).
Proof.
  intros [a Ha] Hc Hd Hlt. apply conflict_query_empty in Hc.
  unfold createReservation. rewrite Ha, Hc.
  assert (exceeds (daysAhead rq) (maxDaysAhead (user_tier (req_user rq)))
          = true) as -> by (apply exceeds_true; eauto).
  done.
Qed.

(** With the three checks passed the response is that of the insert. *)
Lemma create_inserts rq st :
  is_Some (assetResult st (assetId rq) (user_family_id (req_user rq))) →
  ¬ has_conflict sql_overlap rq st →
  exceeds (daysAhead rq) (maxDaysAhead (user_tier (req_user rq))) = false →
  createReservation rq st =
    match insert_reservation (uuidv4 rq) (new_row rq) (metadata rq) st with
    | Some st' => (Json (uuidv4 rq) (new_row rq), st')
    | None => (Error 500 "Failed to create reservation", st)
    end.
Proof.
  intros [a Ha] Hc Hd. apply conflict_query_empty in Hc.
  unfold createReservation. by rewrite Ha, Hc, Hd.
Qed.

(** The datastore takes the row exactly when the id is a UUID not yet in
    use and the metadata, if any, is JSON; the table then holds the row
    under that id and is otherwise as before. *)
Lemma insert_reservation_Some id row m st st' :
  insert_reservation id row m st = Some st' ↔
  is_uuid id = true ∧ jsonb_accepted m = true ∧
  text_accepted (res_notes row) = true ∧
  reservations st !! id = None ∧
  st' = with_reservations st (<[id := row]> (reservations st)).
Proof.
  unfold insert_reservation.
  destruct (is_uuid id), (jsonb_accepted m), (text_accepted (res_notes row)),
    (reservations st !! id);
    simpl; split; try done; try (by intros (? & ? & ? & ? & ?)).
  - by intros [= <-].
  - by intros (_ & _ & _ & _ & ->).
Qed.


Lemma create_admitted rq st :
  is_Some (assetResult st (assetId rq) (user_family_id (req_user rq))) →
  ¬ has_conflict sql_overlap rq st →
  exceeds (daysAhead rq) (maxDaysAhead (user_tier (req_user rq))) = false →
  reservations st !! uuidv4 rq = None →
  is_uuid (uuidv4 rq) = true →
  jsonb_accepted (metadata rq) = true →
  text_accepted (notes rq) = true →
  createReservation rq st =
    (Json (uuidv4 rq) (new_row rq),
     with_reservations st (<[uuidv4 rq := new_row rq]> (reservations st))).
Proof.
  intros Ha Hc Hd Hid Hu Hj Hn. rewrite create_inserts by done.
  by rewrite (proj2 (insert_reservation_Some (uuidv4 rq) (new_row rq) _ st _)
                (conj Hu (conj Hj (conj Hn (conj Hid eq_refl))))).
Qed.

Lemma createReservation_outcome rq st :
  create_outcome rq st (createReservation rq st).
Proof.
  destruct (assetResult st (assetId rq) (user_family_id (req_user rq)))
    as [a|] eqn:Ha.
  - assert (is_Some (assetResult st (assetId rq) (user_family_id (req_user rq))))
      as Hs by (rewrite Ha; eauto).
    destruct (0 <? size (conflictResult st (assetId rq) (startDate rq) (endDate rq)))%nat
      eqn:Hc.
    + apply conflict_query_has_conflict in Hc.
      rewrite create_conflict by done. by constructor.
    + apply conflict_query_empty in Hc.
      destruct (exceeds (daysAhead rq) (maxDaysAhead (user_tier (req_user rq))))
        eqn:Hd.
      * apply exceeds_true in Hd as (d & Hd & Hlt).
        rewrite (create_forbidden rq st d) by done. by econstructor.
      * rewrite create_inserts by done.
        destruct (insert_reservation _ _ _ _) as [st'|] eqn:Hi.
        -- apply insert_reservation_Some in Hi as (Hu & Hj & Hn & Hid & ->).
           by constructor.
        -- by apply out_refused.
  - destruct (is_uuid (assetId rq)) eqn:Hu.
    + rewrite create_not_found by done. by constructor.
    + rewrite create_bad_id by done. by constructor.
Qed.

(** ** Outcomes of [cancelReservation] *)

Lemma cancel_owned cq st r :
  reservations st !! cancel_id cq = Some r →
  res_user_id r = user_id (cancel_user cq) →
  cancelReservation cq st =
    (Json (cancel_id cq) (set_cancelled (cancel_now cq) r),
     with_reservations st
       (<[cancel_id cq := set_cancelled (cancel_now cq) r]> (reservations st))).
Proof.
  intros Hr Hu. unfold cancelReservation. rewrite Hr.
  by rewrite decide_True.
Qed.

Lemma cancel_rejected cq st :
  (¬ ∃ r, reservations st !! cancel_id cq = Some r ∧
          res_user_id r = user_id (cancel_user cq)) →
  is_uuid (cancel_id cq) = true →
  cancelReservation cq st =
    (Error 404 "Reservation not found or not authorized", st).
Proof.
  intros H Hu. unfold cancelReservation. rewrite Hu.
  destruct (reservations st !! cancel_id cq) as [r|]; [|done].
  case_decide; [|done]. destruct H. eauto.
Qed.

Lemma cancel_bad_id cq st :
  reservations st !! cancel_id cq = None →
  is_uuid (cancel_id cq) = false →
  cancelReservation cq st = (Error 500 "Failed to cancel reservation", st).
Proof. intros H Hu. unfold cancelReservation. by rewrite H, Hu. Qed.

(** ** Keys are UUIDs *)

Lemma create_keeps_uuid_keys rq st :
  uuid_keys st → uuid_keys (createReservation rq st).2.
Proof.
  intros [Ha Hr].
  destruct (createReservation_outcome rq st) as [| | | | |? ? ? Hid Hu _ _];
    try done.
  split; [exact Ha|]. intros i r. simpl.
  destruct (decide (i = uuidv4 rq)) as [->|Hi]; [done|].
  rewrite lookup_insert_ne by done. apply Hr.
Qed.

Lemma cancel_keeps_uuid_keys cq st :
  uuid_keys st → uuid_keys (cancelReservation cq st).2.
Proof.
  intros [Ha Hr]. unfold cancelReservation.
  destruct (reservations st !! cancel_id cq) as [r|] eqn:Hc;
    [|by destruct (is_uuid _)].
  case_decide; [|done].
  split; [exact Ha|]. intros i r0. simpl.
  destruct (decide (i = cancel_id cq)) as [->|Hi]; [intros _; eauto|].
  rewrite lookup_insert_ne by done. apply Hr.
Qed.

Lemma run_keeps_uuid_keys ops st :
  uuid_keys st → uuid_keys (run ops st).
Proof.
  revert st. induction ops as [|o ops IH]; intros st H; [done|].
  simpl. apply IH.
  destruct o; [by apply create_keeps_uuid_keys | by apply cancel_keeps_uuid_keys].
Qed.

(** With every key a UUID, an id that is not one is answered with 500
    whatever the tables hold. *)
Lemma create_malformed_asset_id rq st :
  uuid_keys st →
  is_uuid (assetId rq) = false →
  createReservation rq st = (Error 500 "Failed to create reservation", st).
Proof.
  intros [Ha _] Hu. apply create_bad_id; [|done].
  unfold assetResult.
  destruct (assets st !! assetId rq) as [a|] eqn:Hl; [|done].
  apply Ha in Hl. congruence.
Qed.

Lemma cancel_malformed_id cq st :
  uuid_keys st →
  is_uuid (cancel_id cq) = false →
  cancelReservation cq st = (Error 500 "Failed to cancel reservation", st).
Proof.
  intros [_ Hr] Hu. apply cancel_bad_id; [|done].
  destruct (reservations st !! cancel_id cq) as [r|] eqn:Hl; [|done].
  apply Hr in Hl. congruence.
Qed.

(** ** The booking invariant *)


Lemma no_double_booking_empty overlap A :
  no_double_booking overlap {| assets := A; reservations := ∅ |}.
Proof. intros i j r1 r2 _ Hi. simpl in Hi. by rewrite lookup_empty in Hi. Qed.

(** A row that the conflict query did not return may share the table
    with the new row. *)
Lemma new_row_compatible rq st i r :
  ¬ has_conflict sql_overlap rq st →
  reservations st !! i = Some r →
  res_asset_id r = assetId rq →
  res_status r ≠ cancelled →
  overlaps_timestamp (startDate rq) (endDate rq)
    (res_start_date r) (res_end_date r) = false.
Proof.
  intros Hc Hi Ha Hs.
  destruct (overlaps_timestamp _ _ _ _) eqn:Ho; [|done].
  destruct Hc. exists i, r. done.
Qed.

Lemma create_preserves rq st :
  no_double_booking sql_overlap st →
  no_double_booking sql_overlap (createReservation rq st).2.
Proof.
  intros Hinv.
  destruct (createReservation_outcome rq st) as [| | | | |Ha Hc Hd Hid _ _ _];
    try exact Hinv.
  intros i j r1 r2 Hij Hi Hj Hasset H1 H2. simpl in Hi, Hj.
  unfold sql_overlap.
  destruct (decide (i = uuidv4 rq)) as [->|Hi'];
    destruct (decide (j = uuidv4 rq)) as [->|Hj']; [done|..].
  - rewrite lookup_insert_eq in Hi. injection Hi as <-.
    rewrite lookup_insert_ne in Hj by done. simpl in *.
    by rewrite (new_row_compatible rq st j r2).
  - rewrite lookup_insert_eq in Hj. injection Hj as <-.
    rewrite lookup_insert_ne in Hi by done. simpl in *.
    rewrite overlaps_timestamp_comm.
    by rewrite (new_row_compatible rq st i r1).
  - rewrite lookup_insert_ne in Hi, Hj by done.
    by apply (Hinv i j).
Qed.

Lemma cancel_preserves cq st :
  no_double_booking sql_overlap st →
  no_double_booking sql_overlap (cancelReservation cq st).2.
Proof.
  intros Hinv. unfold cancelReservation.
  destruct (reservations st !! cancel_id cq) as [r|] eqn:Hr;
    [|by destruct (is_uuid _)].
  case_decide; [|exact Hinv].
  intros i j r1 r2 Hij Hi Hj Hasset H1 H2. simpl in Hi, Hj.
  destruct (decide (i = cancel_id cq)) as [->|Hi'].
  { rewrite lookup_insert_eq in Hi. injection Hi as <-. done. }
  destruct (decide (j = cancel_id cq)) as [->|Hj'].
  { rewrite lookup_insert_eq in Hj. injection Hj as <-. done. }
  rewrite lookup_insert_ne in Hi, Hj by done.
  by apply (Hinv i j).
Qed.

Lemma exec_preserves o st :
  no_double_booking sql_overlap st →
  no_double_booking sql_overlap (exec o st).
Proof.
  destruct o; [apply create_preserves | apply cancel_preserves].
Qed.

Lemma run_preserves ops st :
  no_double_booking sql_overlap st →
  no_double_booking sql_overlap (run ops st).
Proof.
  revert st. induction ops as [|o ops IH]; intros st Hinv; [done|].
  simpl. by apply IH, exec_preserves.
Qed.


(** C1, as stated, fails: starting from no reservations, booking the jet
    for days 10 to 12 and then for days 12 to 14 leaves two confirmed
    reservations whose intervals overlap inclusively. *)
Lemma C1_inclusive_invariant_fails :
  reservations demo_db = ∅ ∧
  ¬ no_double_booking inclusive_overlap
      (run [Create (booking carlos 7%N 10 12);
            Create (booking carlos 8%N 12 14)] demo_db).
Proof.
  split; [reflexivity|]. intros H.
  apply (H 7%N 8%N (new_row (booking carlos 7%N 10 12))
           (new_row (booking carlos 8%N 12 14)));
    try done.
  all: vm_compute; split; discriminate.
Qed.

(** C1, amended: after every sequence of createReservation and
    cancelReservation operations run one after the other from a datastore
    with no reservations, no two distinct non-cancelled reservations of one
    asset have intervals that overlap in the sense of the datastore's
    OVERLAPS operator. *)
Theorem C1_no_double_booking (A : gmap N asset) (ops : list op) :
  no_double_booking sql_overlap
    (run ops {| assets := A; reservations := ∅ |}).
Proof. apply run_preserves, no_double_booking_empty. Qed.

(** ** Admission rules *)

Lemma is_error_code c c' m : is_error c (Error c' m) ↔ c = c'.
Proof.
  unfold is_error. split; [intros [? [= -> ]]; done | intros ->; eauto].
Qed.

Lemma is_error_Json c i r : ¬ is_error c (Json i r).
Proof. intros [? [=]]. Qed.

(** C2, as stated, fails: with the jet booked for days 10 to 12, a request
    for days 12 to 14 shares the endpoint day 12 with it, so the inclusive
    predicate holds, yet the request is admitted. *)
Lemma C2_inclusive_conflict_rule_fails :
  let st := run [Create (booking carlos 7%N 10 12)] demo_db in
  let rq := booking carlos 8%N 12 14 in
  is_Some (assetResult st (assetId rq) (user_family_id (req_user rq))) ∧
  has_conflict inclusive_overlap rq st ∧
  (createReservation rq st).1 = Json 8%N (new_row rq) ∧
  ¬ conflict_rule inclusive_overlap rq st.
Proof.
  intros st rq.
  assert (has_conflict inclusive_overlap rq st) as Hc.
  { exists 7%N, (new_row (booking carlos 7%N 10 12)).
    repeat split; try done; vm_compute; discriminate. }
  split; [by eexists|]. split; [exact Hc|]. split; [reflexivity|].
  intros [_ H]. destruct (H Hc) as [[m Hm] _]. vm_compute in Hm. discriminate.
Qed.

(** C2, amended: when the ownership check passes, createReservation fails
    with Conflict, creating nothing, if and only if some non-cancelled
    reservation of the asset overlaps the requested interval in the sense
    of the datastore's OVERLAPS operator; two intervals that share only an
    endpoint do not overlap. *)
Theorem C2_conflict_iff_sql_overlap rq st :
  is_Some (assetResult st (assetId rq) (user_family_id (req_user rq))) →
  conflict_rule sql_overlap rq st ∧
  (∀ s m e, s < m → m < e → ¬ sql_overlap m e s m).
Proof.
  intros Ha. split.
  - unfold conflict_rule.
    destruct (createReservation_outcome rq st) as [Hn|Hn| | | |]; simpl.
    + rewrite Hn in Ha. by destruct Ha.
    + rewrite Hn in Ha. by destruct Ha.
    + split; [done|]. intros _. split; [by apply is_error_code | done].
    + rewrite is_error_code. split; [intros [[=] _] | done].
    + rewrite is_error_code. split; [intros [[=] _] | done].
    + split; [intros [[]%is_error_Json _] | done].
  - intros s m e Hsm Hme. unfold sql_overlap.
    rewrite overlaps_timestamp_comm, overlaps_timestamp_touching; done.
Qed.

Lemma C2_conflict_iff_sql_overlap_witness :
  let st := run [Create (booking carlos 7%N 10 12)] demo_db in
  let rq := booking carlos 8%N 11 13 in
  conflict_rule sql_overlap rq st ∧
  (∀ s m e, s < m → m < e → ¬ sql_overlap m e s m).
Proof.
  intros st rq. apply (C2_conflict_iff_sql_overlap rq st).
  vm_compute. eauto.
Defined.




(** ** The handler run one resumption at a time *)

(** Run with no other handler in between, the three resumptions compute
    [createReservation]. *)
Lemma run_handler_createReservation rq st :
  run_handler 3 rq AwaitAssetQuery st =
    (Responded (createReservation rq st).1, (createReservation rq st).2).
Proof.
  unfold createReservation, run_handler. cbn [handler_step].
  destruct (assetResult st (assetId rq) (user_family_id (req_user rq)));
    [|by destruct (is_uuid (assetId rq))].
  cbn [handler_step].
  destruct (0 <? size (conflictResult st (assetId rq) (startDate rq) (endDate rq)))%nat;
    [done|].
  destruct (exceeds (daysAhead rq) (maxDaysAhead (user_tier (req_user rq))));
    [done|].
  cbn [handler_step].
  by destruct (insert_reservation (uuidv4 rq) (new_row rq) (metadata rq) st).
Qed.

(** Two requests that would each be admitted against [st] can both reach
    their insert with [st] still unchanged. *)
Lemma race_both_checked rq1 rq2 st :
  (createReservation rq1 st).1 = Json (uuidv4 rq1) (new_row rq1) →
  (createReservation rq2 st).1 = Json (uuidv4 rq2) (new_row rq2) →
  rtc (system_step rq1 rq2) (both_idle st) (both_checked st).
Proof.
  intros H1 H2.
  destruct (createReservation_outcome rq1 st)
    as [| | | | |[a1 Ha1] Hc1 Ht1 _ _ _ _]; try done.
  destruct (createReservation_outcome rq2 st)
    as [| | | | |[a2 Ha2] Hc2 Ht2 _ _ _ _]; try done.
  apply conflict_query_empty in Hc1, Hc2.
  eapply rtc_l. { apply resume_left. simpl. rewrite Ha1. reflexivity. }
  eapply rtc_l. { apply resume_right. simpl. rewrite Ha2. reflexivity. }
  eapply rtc_l. { apply resume_left. simpl. rewrite Hc1, Ht1. reflexivity. }
  eapply rtc_l. { apply resume_right. simpl. rewrite Hc2, Ht2. reflexivity. }
  apply rtc_refl.
Qed.

(** From there both inserts go through when the datastore accepts each
    row and the two ids differ. *)
Lemma race_both_commit rq1 rq2 st :
  uuidv4 rq1 ≠ uuidv4 rq2 →
  reservations st !! uuidv4 rq1 = None →
  reservations st !! uuidv4 rq2 = None →
  is_uuid (uuidv4 rq1) && jsonb_accepted (metadata rq1)
    && text_accepted (notes rq1) = true →
  is_uuid (uuidv4 rq2) && jsonb_accepted (metadata rq2)
    && text_accepted (notes rq2) = true →
  rtc (system_step rq1 rq2) (both_checked st)
    {| sys_db :=
         with_reservations st
           (<[uuidv4 rq2 := new_row rq2]>
              (<[uuidv4 rq1 := new_row rq1]> (reservations st)));
       sys_left := Responded (Json (uuidv4 rq1) (new_row rq1));
       sys_right := Responded (Json (uuidv4 rq2) (new_row rq2)) |}.
Proof.
  intros Hne H1 H2 Hok1 Hok2.
  eapply rtc_l.
  { apply resume_left. unfold handler_step, insert_reservation.
    change (res_notes (new_row rq1)) with (notes rq1).
    cbn [reservations with_reservations sys_db sys_left both_checked].
    rewrite Hok1, H1. reflexivity. }
  eapply rtc_l.
  { apply resume_right. unfold handler_step, insert_reservation.
    change (res_notes (new_row rq2)) with (notes rq2).
    cbn [reservations with_reservations sys_db sys_right both_checked].
    rewrite Hok2, lookup_insert_ne, H2 by done. reflexivity. }
  apply rtc_refl.
Qed.

(** C4: the conflict query and the insert are separate statements, and
    there is an interleaving of two createReservation handlers for
    overlapping intervals on one asset in which both pass the conflict
    check before either inserts, and both inserts commit: the database
    ends with two overlapping confirmed reservations of the asset.  Run
    one after the other, the second request is refused with Conflict. *)
Theorem C4_check_then_insert_race :
  ∃ rq1 rq2 st st' row1 row2,
    assetId rq1 = assetId rq2 ∧
    inclusive_overlap (startDate rq1) (endDate rq1) (startDate rq2) (endDate rq2) ∧
    sql_overlap (startDate rq1) (endDate rq1) (startDate rq2) (endDate rq2) ∧
    rtc (system_step rq1 rq2) (both_idle st) (both_checked st) ∧
    rtc (system_step rq1 rq2) (both_checked st)
      {| sys_db := st';
         sys_left := Responded (Json (uuidv4 rq1) row1);
         sys_right := Responded (Json (uuidv4 rq2) row2) |} ∧
    uuidv4 rq1 ≠ uuidv4 rq2 ∧
    reservations st' !! uuidv4 rq1 = Some row1 ∧
    reservations st' !! uuidv4 rq2 = Some row2 ∧
    res_status row1 = confirmed ∧ res_status row2 = confirmed ∧
    ¬ no_double_booking sql_overlap st' ∧
    is_error 409 (createReservation rq2 (createReservation rq1 st).2).1.
Proof.
  exists (booking carlos 7%N 10 12), (booking juan 8%N 11 13), demo_db.
  eexists _, _, _.
  split; [reflexivity|]. split; [by vm_compute|]. split; [reflexivity|].
  split; [by apply race_both_checked|].
  split; [apply race_both_commit; [done | reflexivity..]|].
  split; [done|]. split; [reflexivity|]. split; [reflexivity|].
  split; [reflexivity|]. split; [reflexivity|]. split.
  - intros H.
    by apply (H 7%N 8%N (new_row (booking carlos 7%N 10 12))
                (new_row (booking juan 8%N 11 13))).
  - by eexists.
Qed.

(** C5, as stated, fails: an asset id that is not a UUID names no asset
    of the requester's family, and the request is answered with 500, not
    with NotFound. *)
Lemma C5_malformed_id_is_500 :
  let rq := stray_booking carlos 8%N 3 5 in
  (¬ ∃ a, assets demo_db !! assetId rq = Some a ∧
          user_family_id (req_user rq) = Some (asset_family_id a)) ∧
  createReservation rq demo_db =
    (Error 500 "Failed to create reservation", demo_db) ∧
  ¬ is_error 404 (createReservation rq demo_db).1.
Proof.
  intros rq. split.
  { intros (a & Ha & _). vm_compute in Ha. discriminate. }
  split; [reflexivity|].
  intros [m Hm]. vm_compute in Hm. discriminate.
Qed.

(** C5, amended: when the asset id is a UUID that names no asset of the
    requester's family (no such asset, or one of another family),
    createReservation fails with NotFound whatever the interval, the tier
    and the reservations on record; the handler responds at its first
    resumption, before the conflict query and the tier test. *)
Theorem C5_foreign_asset_not_found rq st :
  (¬ ∃ a, assets st !! assetId rq = Some a ∧
          user_family_id (req_user rq) = Some (asset_family_id a)) →
  is_uuid (assetId rq) = true →
  createReservation rq st = (Error 404 "Asset not found", st) ∧
  handler_step rq AwaitAssetQuery st =
    (Responded (Error 404 "Asset not found"), st).
Proof.
  intros H Hu. apply assetResult_None in H.
  split; [by apply create_not_found|].
  simpl. by rewrite H, Hu.
Qed.

(** A tier-1 member of another family asks for the jet. *)
Lemma C5_foreign_asset_not_found_witness :
  let rq := booking outsider 8%N 3 5 in
  createReservation rq demo_db = (Error 404 "Asset not found", demo_db) ∧
  handler_step rq AwaitAssetQuery demo_db =
    (Responded (Error 404 "Asset not found"), demo_db).
Proof.
  intros rq. apply (C5_foreign_asset_not_found rq demo_db).
  - intros (a & Ha & Hf). vm_compute in Ha. injection Ha as <-.
    vm_compute in Hf. discriminate.
  - reflexivity.
Defined.

(** C6: a successful createReservation adds exactly one row, under an id
    that was unused, and changes nothing else; every failing
    createReservation (NotFound, Conflict, Forbidden, or the datastore
    refusing the insert) leaves the database as it was. *)
Theorem C6_one_row_or_none rq st :
  match createReservation rq st with
  | (Json id row, st') =>
      reservations st !! id = None ∧
      reservations st' = <[id := row]> (reservations st) ∧
      size (reservations st') = S (size (reservations st)) ∧
      assets st' = assets st
  | (Error code _, st') =>
      st' = st ∧ code ∈ [404; 409; 403; 500]
  end.
Proof.
  destruct (createReservation_outcome rq st) as [| | | | |Ha Hc Hd Hid _ _ _].
  1-5: split; [done | set_solver].
  simpl. repeat split; try done.
  by apply map_size_insert_None.
Qed.

(** C7, as stated, fails: for an id that is not a UUID there is no
    reservation to cancel, and the request is answered with 500, not with
    NotFound. *)
Lemma C7_malformed_id_is_500 :
  let st := run [Create (booking carlos 7%N 10 12)] demo_db in
  let cq := {| cancel_user := carlos; cancel_id := not_a_uuid;
               cancel_now := day 1 |} in
  (¬ ∃ r, reservations st !! cancel_id cq = Some r ∧
          res_user_id r = user_id (cancel_user cq)) ∧
  cancelReservation cq st = (Error 500 "Failed to cancel reservation", st) ∧
  ¬ is_error 404 (cancelReservation cq st).1.
Proof.
  intros st cq. split.
  { intros (r & Hr & _). vm_compute in Hr. discriminate. }
  split; [reflexivity|].
  intros [m Hm]. vm_compute in Hm. discriminate.
Qed.

(** C7, amended: cancelReservation sets the status to cancelled and
    updated_at to now, leaves every other column of the row as it was,
    stores and returns that row, if and only if a reservation with the
    given id exists and its user_id is the requester's id; otherwise, the
    id being a UUID, it fails with NotFound and modifies nothing.  No
    other reservation is touched, and neither the interval nor the tier
    takes part. *)
Theorem C7_cancel_iff_owner cq st :
  let owned := ∃ r, reservations st !! cancel_id cq = Some r ∧
                    res_user_id r = user_id (cancel_user cq) in
  (∀ r, reservations st !! cancel_id cq = Some r →
        res_user_id r = user_id (cancel_user cq) →
        let r' := {| res_asset_id := res_asset_id r;
                     res_user_id := res_user_id r;
                     res_start_date := res_start_date r;
                     res_end_date := res_end_date r;
                     res_status := cancelled;
                     res_notes := res_notes r;
                     res_metadata := res_metadata r;
                     res_created_at := res_created_at r;
                     res_updated_at := cancel_now cq |} in
        cancelReservation cq st =
          (Json (cancel_id cq) r',
           with_reservations st (<[cancel_id cq := r']> (reservations st)))) ∧
  (∀ i r', (cancelReservation cq st).1 = Json i r' → owned) ∧
  (¬ owned → is_uuid (cancel_id cq) = true →
   cancelReservation cq st =
     (Error 404 "Reservation not found or not authorized", st)) ∧
  (∀ j, j ≠ cancel_id cq →
        reservations (cancelReservation cq st).2 !! j = reservations st !! j).
Proof.
  intros owned. split; [|split; [|split]].
  - intros r Hr Hu r'. by rewrite (cancel_owned cq st r).
  - intros i r' Hres. unfold cancelReservation in Hres.
    destruct (reservations st !! cancel_id cq) as [r|] eqn:Hr.
    + case_decide; [|done]. by exists r.
    + by destruct (is_uuid (cancel_id cq)).
  - apply cancel_rejected.
  - intros j Hj. unfold cancelReservation.
    destruct (reservations st !! cancel_id cq) as [r|];
      [|by destruct (is_uuid (cancel_id cq))].
    case_decide; [|done]. simpl. by rewrite lookup_insert_ne.
Qed.

(** Juan asks to cancel a reservation that Carlos made, and is refused;
    Carlos asks, and the row comes back cancelled, its interval as it
    was. *)
Lemma C7_cancel_iff_owner_witness :
  let st := run [Create (booking carlos 7%N 10 12)] demo_db in
  let by_juan := {| cancel_user := juan; cancel_id := 7%N;
                    cancel_now := day 1 |} in
  let by_carlos := {| cancel_user := carlos; cancel_id := 7%N;
                      cancel_now := day 1 |} in
  cancelReservation by_juan st =
    (Error 404 "Reservation not found or not authorized", st) ∧
  ∃ r', (cancelReservation by_carlos st).1 = Json 7%N r' ∧
        res_status r' = cancelled ∧
        res_start_date r' = day 10 ∧ res_end_date r' = day 12 ∧
        res_updated_at r' = day 1.
Proof.
  intros st by_juan by_carlos. split.
  - apply (proj1 (proj2 (proj2 (C7_cancel_iff_owner by_juan st)))).
    + intros (r & Hr & Hu). vm_compute in Hr. injection Hr as <-.
      vm_compute in Hu. discriminate.
    + reflexivity.
  - eexists.
    rewrite (proj1 (C7_cancel_iff_owner by_carlos st)
               (new_row (booking carlos 7%N 10 12)) eq_refl eq_refl).
    repeat split.
Defined.

(** C8: cancelling a reservation of the requester that is already
    cancelled succeeds and returns it with status cancelled and every
    field but updated_at as it was. *)
Theorem C8_cancel_idempotent cq st r :
  reservations st !! cancel_id cq = Some r →
  res_user_id r = user_id (cancel_user cq) →
  res_status r = cancelled →
  ∃ r',
    cancelReservation cq st =
      (Json (cancel_id cq) r',
       with_reservations st (<[cancel_id cq := r']> (reservations st))) ∧
    res_status r' = cancelled ∧
    res_updated_at r' = cancel_now cq ∧
    res_asset_id r' = res_asset_id r ∧
    res_user_id r' = res_user_id r ∧
    res_start_date r' = res_start_date r ∧
    res_end_date r' = res_end_date r ∧
    res_notes r' = res_notes r ∧
    res_metadata r' = res_metadata r ∧
    res_created_at r' = res_created_at r.
Proof.
  intros Hr Hu Hs. exists (set_cancelled (cancel_now cq) r).
  split; [by apply cancel_owned|]. done.
Qed.

Lemma C8_cancel_idempotent_witness :
  let st := run [Create (booking carlos 7%N 10 12);
                 Cancel {| cancel_user := carlos; cancel_id := 7%N;
                           cancel_now := day 1 |}] demo_db in
  let cq := {| cancel_user := carlos; cancel_id := 7%N; cancel_now := day 2 |} in
  let r := set_cancelled (day 1) (new_row (booking carlos 7%N 10 12)) in
  reservations st !! 7%N = Some r ∧
  ∃ r',
    cancelReservation cq st =
      (Json (cancel_id cq) r',
       with_reservations st (<[cancel_id cq := r']> (reservations st))) ∧
    res_status r' = cancelled ∧
    res_updated_at r' = cancel_now cq ∧
    res_asset_id r' = res_asset_id r ∧
    res_user_id r' = res_user_id r ∧
    res_start_date r' = res_start_date r ∧
    res_end_date r' = res_end_date r ∧
    res_notes r' = res_notes r ∧
    res_metadata r' = res_metadata r ∧
    res_created_at r' = res_created_at r.
Proof.
  intros st cq r. split; [reflexivity|].
  apply (C8_cancel_idempotent cq st r); reflexivity.
Defined.

(** C9: createReservation has no test on the order of start and end: a
    request whose start is not earlier than its end and that passes the
    ownership, conflict and tier checks has its insert issued like any
    other, and when the datastore accepts the row (an unused UUID,
    metadata that is JSON or absent, notes without a NUL character) the
    reservation is created with the interval as given.  The witness is
    such a request. *)
Theorem C9_inverted_interval_admitted rq st :
  endDate rq ≤ startDate rq →
  is_Some (assetResult st (assetId rq) (user_family_id (req_user rq))) →
  ¬ has_conflict sql_overlap rq st →
  (¬ ∃ d, daysAhead rq = Some d ∧ maxDaysAhead (user_tier (req_user rq)) < d) →
  reservations st !! uuidv4 rq = None →
  is_uuid (uuidv4 rq) = true →
  jsonb_accepted (metadata rq) = true →
  text_accepted (notes rq) = true →
  ∃ row,
    (createReservation rq st).1 = Json (uuidv4 rq) row ∧
    reservations (createReservation rq st).2 !! uuidv4 rq = Some row ∧
    res_status row = confirmed ∧
    res_start_date row = startDate rq ∧
    res_end_date row = endDate rq ∧
    res_end_date row ≤ res_start_date row.
Proof.
  intros Hinv Ha Hc Hd Hid Hu Hj Hn. exists (new_row rq).
  apply exceeds_false in Hd.
  rewrite create_admitted by done. simpl.
  by rewrite lookup_insert_eq.
Qed.

(** The jet from day 14 back to day 12. *)
Lemma C9_inverted_interval_admitted_witness :
  let rq := booking carlos 8%N 14 12 in
  endDate rq < startDate rq ∧
  ∃ row,
    (createReservation rq demo_db).1 = Json (uuidv4 rq) row ∧
    reservations (createReservation rq demo_db).2 !! uuidv4 rq = Some row ∧
    res_status row = confirmed ∧
    res_start_date row = startDate rq ∧
    res_end_date row = endDate rq ∧
    res_end_date row ≤ res_start_date row.
Proof.
  intros rq. split; [reflexivity|].
  apply (C9_inverted_interval_admitted rq demo_db).
  - vm_compute. discriminate.
  - vm_compute. eauto.
  - intros (i & r & Hi & _). vm_compute in Hi. discriminate.
  - intros (d & [= <-] & Hlt). vm_compute in Hlt. discriminate.
  - reflexivity.
  - reflexivity.
  - reflexivity.
  - reflexivity.
Defined.



(** * Properties of the other handlers *)

(** ** The [Authorization] header *)

Lemma split_space_cons s : ∃ w ws, split_space s = w :: ws.
Proof.
  induction s as [|c s IH]; simpl; [eauto|].
  destruct (Ascii.eqb c space); [eauto|].
  destruct IH as (w & ws & ->). eauto.
Qed.

(** The fields after a first field without a space are those of the rest
    of the string. *)
Lemma split_space_field w rest :
  has_space w = false →
  split_space (w +:+ String space rest) = w :: split_space rest.
Proof.
  induction w as [|c w IH]; simpl; intros Hw.
  - reflexivity.
  - apply orb_false_iff in Hw as [Hc Hw]. rewrite Hc, IH by done. done.
Qed.

Lemma split_space_whole s : has_space s = false → split_space s = [s].
Proof.
  induction s as [|c s IH]; simpl; intros Hs; [done|].
  apply orb_false_iff in Hs as [Hc Hs]. by rewrite Hc, IH.
Qed.

Lemma bearer_token_field w t :
  has_space w = false → has_space t = false → t ≠ EmptyString →
  bearer_token (Some (w +:+ String space t)) = Some t.
Proof.
  intros Hw Ht Hne. unfold bearer_token.
  rewrite split_space_field, split_space_whole by done. simpl.
  by rewrite decide_False.
Qed.

(** The middleware never looks at the word before the space: any two
    headers that differ only in it are treated alike. *)
Theorem authenticate_ignores_scheme `{Crypto} w1 w2 rest now st :
  has_space w1 = false → has_space w2 = false →
  authenticate (Some (w1 +:+ String space rest)) now st =
  authenticate (Some (w2 +:+ String space rest)) now st.
Proof.
  intros H1 H2. unfold authenticate, bearer_token.
  by rewrite !split_space_field.
Qed.

(** What the middleware does with [Bearer <token>]. *)
Lemma authenticate_bearer_token `{Crypto} t now st :
  has_space t = false → t ≠ EmptyString →
  authenticate (Some ("Bearer " +:+ t)) now st =
    match jwt_verify t now with
    | None => Failed 401 "Invalid token"
    | Some id =>
        match srv_users st !! id with
        | None => Failed 401 "User not found"
        | Some acc => Sent (user_of id acc)
        end
    end.
Proof.
  intros Ht Hne. unfold authenticate.
  change ("Bearer " +:+ t) with ("Bearer" +:+ String space t).
  by rewrite bearer_token_field.
Qed.

(** A header of the form [Bearer <token>] passes exactly when the token
    verifies to the id of an existing user, and then [req.user] is that
    user's row. *)
Theorem authenticate_bearer `{Crypto} t now st u :
  has_space t = false → t ≠ EmptyString →
  authenticate (Some ("Bearer " +:+ t)) now st = Sent u ↔
  ∃ id acc, jwt_verify t now = Some id ∧
            srv_users st !! id = Some acc ∧ u = user_of id acc.
Proof.
  intros Ht Hne. rewrite authenticate_bearer_token by done.
  destruct (jwt_verify t now) as [id|]; [|split; [done | by intros (?&?&?&_)]].
  destruct (srv_users st !! id) as [acc|] eqn:Hacc.
  - split.
    + intros [= <-]. eauto.
    + intros (id' & acc' & [= <-] & Hacc' & ->). congruence.
  - split; [done|]. intros (id' & acc' & [= <-] & Hacc' & _). congruence.
Qed.

(** A header with no space in it, such as the bare token, is refused as
    [No token provided] without the token being verified; so is a
    missing header. *)
Theorem authenticate_bare_header `{Crypto} h now st :
  has_space h = false →
  authenticate (Some h) now st = Failed 401 "No token provided" ∧
  authenticate None now st = Failed 401 "No token provided".
Proof.
  intros Hh. unfold authenticate, bearer_token.
  by rewrite split_space_whole.
Qed.

(** ** Registration and login *)

Lemma users_by_email_lookup st e i a :
  users_by_email st e !! i = Some a ↔
  srv_users st !! i = Some a ∧ acc_email a = e.
Proof. unfold users_by_email. by rewrite map_lookup_filter_Some. Qed.

Lemma users_by_email_empty st e :
  (0 <? size (users_by_email st e))%nat = false ↔
  ∀ i a, srv_users st !! i = Some a → acc_email a ≠ e.
Proof.
  rewrite Nat.ltb_ge. split.
  - intros Hsz i a Hi He.
    assert (users_by_email st e = ∅) as Hempty
      by (apply map_size_empty_iff; lia).
    assert (users_by_email st e !! i = Some a) as Hl
      by by apply users_by_email_lookup.
    by rewrite Hempty in Hl.
  - intros Hno.
    destruct (map_choose_or_empty (users_by_email st e)) as [(i & a & Hl)| ->].
    + apply users_by_email_lookup in Hl as [Hi He]. by destruct (Hno i a).
    + by rewrite map_size_empty.
Qed.

Lemma first_by_email_Some st e i a :
  first_by_email st e = Some (i, a) →
  srv_users st !! i = Some a ∧ acc_email a = e.
Proof.
  unfold first_by_email. intros Hh.
  apply users_by_email_lookup, elem_of_map_to_list.
  destruct (map_to_list (users_by_email st e)) as [|x l]; [done|].
  injection Hh as ->. apply list_elem_of_here.
Qed.

Lemma first_by_email_unique st i a :
  emails_unique st →
  srv_users st !! i = Some a →
  first_by_email st (acc_email a) = Some (i, a).
Proof.
  intros Hu Hi.
  destruct (first_by_email st (acc_email a)) as [[j b]|] eqn:Hf.
  - apply first_by_email_Some in Hf as [Hj He].
    assert (j = i) as -> by by eapply Hu.
    congruence.
  - unfold first_by_email in Hf.
    assert ((i, a) ∈ map_to_list (users_by_email st (acc_email a))) as Hin
      by by apply elem_of_map_to_list, users_by_email_lookup.
    destruct (map_to_list _); [by apply not_elem_of_nil in Hin | done].
Qed.

Lemma first_by_email_None st e :
  (∀ i a, srv_users st !! i = Some a → acc_email a ≠ e) →
  first_by_email st e = None.
Proof.
  intros Hno. destruct (first_by_email st e) as [[i a]|] eqn:Hf; [|done].
  apply first_by_email_Some in Hf as [Hi He]. by destruct (Hno i a).
Qed.

(** What a successful registration has checked and written. *)
Lemma register_Sent `{Crypto} b id salt now iat st r st' :
  register b id salt now iat st = (Sent r, st') →
  ∃ e n pw,
    reg_email b = Some e ∧ reg_name b = Some n ∧ reg_password b = Some pw ∧
    (∀ i a, srv_users st !! i = Some a → acc_email a ≠ e) ∧
    srv_users st !! id = None ∧
    let acc := {| acc_email := e; acc_password_hash := bcrypt_hash pw salt;
                  acc_name := n; acc_family_id := reg_familyId b;
                  acc_tier := Some 4; acc_created_at := now |} in
    st' = with_users st (<[id := acc]> (srv_users st)) ∧
    r = {| rr_id := id; rr_email := e; rr_name := n; rr_tier := Some 4;
           rr_token := jwt_sign id iat |}.
Proof.
  unfold register, insert_user. intros Hr.
  destruct (0 <? size _)%nat eqn:Hex; [done|].
  destruct (reg_password b) as [pw|]; [|done].
  destruct (srv_users st !! id) eqn:Hid; [done|].
  destruct (reg_email b) as [e|]; [|done].
  destruct (reg_name b) as [n|]; [|done].
  destruct (_ && _); [|done].
  injection Hr as <- <-.
  exists e, n, pw. repeat split; try done.
  by apply users_by_email_empty.
Qed.

Lemma register_Failed `{Crypto} b id salt now iat st c m st' :
  register b id salt now iat st = (Failed c m, st') →
  st' = st ∧ (c = 400 ∨ c = 500).
Proof.
  unfold register. intros Hr.
  destruct (0 <? size _)%nat; [injection Hr as <- <- <-; eauto|].
  destruct (reg_password b); [|injection Hr as <- <- <-; eauto].
  destruct (insert_user _ _ _ _ _ _ _ _) as [[??]|];
    [done | injection Hr as <- <- <-; eauto].
Qed.

(** An email that some account already has is refused with 400 and
    nothing is written. *)
Theorem register_duplicate_email `{Crypto} b id salt now iat st i a :
  srv_users st !! i = Some a →
  reg_email b = Some (acc_email a) →
  register b id salt now iat st = (Failed 400 "Email already registered", st).
Proof.
  intros Hi He. unfold register. rewrite He.
  destruct (0 <? size _)%nat eqn:Hex; [done|].
  rewrite users_by_email_empty in Hex. by destruct (Hex i a).
Qed.

(** A registration that succeeds adds exactly one account, under the
    drawn id, at tier 4, in the family the body names, holding the hash
    and not the password; no other table changes.  One that fails changes
    nothing. *)
Theorem register_one_account_or_none `{Crypto} b id salt now iat st :
  match register b id salt now iat st with
  | (Sent r, st') =>
      srv_users st !! id = None ∧
      (∃ acc,
         srv_users st' = <[id := acc]> (srv_users st) ∧
         acc_tier acc = Some 4 ∧
         acc_family_id acc = reg_familyId b ∧
         reg_email b = Some (acc_email acc) ∧
         (∀ pw, reg_password b = Some pw →
                acc_password_hash acc = bcrypt_hash pw salt)) ∧
      rr_id r = id ∧ rr_tier r = Some 4 ∧
      srv_db st' = srv_db st ∧ srv_families st' = srv_families st ∧
      srv_asset_extra st' = srv_asset_extra st
  | (Failed c _, st') => st' = st ∧ (c = 400 ∨ c = 500)
  end.
Proof.
  destruct (register b id salt now iat st) as [[r|c m] st'] eqn:Hr.
  - apply register_Sent in Hr
      as (e & n & pw & He & Hn & Hpw & Hno & Hid & -> & ->).
    split; [done|]. split; [|done].
    eexists. repeat split; try done.
    intros pw'. rewrite Hpw. by intros [= <-].
  - by eapply register_Failed.
Qed.

(** Registration keeps the emails of the accounts distinct. *)
Theorem register_keeps_emails_unique `{Crypto} b id salt now iat st :
  emails_unique st →
  emails_unique (register b id salt now iat st).2.
Proof.
  intros Hu.
  destruct (register b id salt now iat st) as [[r|c m] st'] eqn:Hr; simpl.
  - apply register_Sent in Hr
      as (e & n & pw & He & Hn & Hpw & Hno & Hid & -> & _).
    intros i j a a' Hi Hj Heq. simpl in Hi, Hj.
    destruct (decide (i = id)) as [->|Hi'];
      destruct (decide (j = id)) as [->|Hj']; [done|..].
    + rewrite lookup_insert_eq in Hi. injection Hi as <-.
      rewrite lookup_insert_ne in Hj by done.
      destruct (Hno j a' Hj). done.
    + rewrite lookup_insert_eq in Hj. injection Hj as <-.
      rewrite lookup_insert_ne in Hi by done.
      destruct (Hno i a Hi). done.
    + rewrite lookup_insert_ne in Hi, Hj by done. by eapply Hu.
  - by apply register_Failed in Hr as [-> _].
Qed.

(** Whoever has registered can log in with the same email and password,
    provided [bcrypt.compare] accepts the password against the hash taken
    of it; the reply carries the registered id, tier 4 and family. *)
Theorem register_then_login `{Crypto} b id salt now iat st r st' pw iat' :
  register b id salt now iat st = (Sent r, st') →
  reg_password b = Some pw →
  bcrypt_compare pw (bcrypt_hash pw salt) = true →
  login {| login_email := reg_email b; login_password := Some pw |} iat' st' =
    Sent {| lr_id := id; lr_email := rr_email r; lr_name := rr_name r;
            lr_tier := Some 4; lr_familyId := reg_familyId b;
            lr_token := jwt_sign id iat' |}.
Proof.
  intros Hr Hpw Hcmp.
  apply register_Sent in Hr
    as (e & n & pw' & He & Hn & Hpw' & Hno & Hid & -> & ->).
  assert (pw' = pw) as -> by congruence.
  unfold login. simpl. rewrite He.
  assert (users_by_email
            (with_users st
               (<[id := {| acc_email := e;
                           acc_password_hash := bcrypt_hash pw salt;
                           acc_name := n; acc_family_id := reg_familyId b;
                           acc_tier := Some 4; acc_created_at := now |}]>
                  (srv_users st))) e
          = {[ id := {| acc_email := e;
                        acc_password_hash := bcrypt_hash pw salt;
                        acc_name := n; acc_family_id := reg_familyId b;
                        acc_tier := Some 4; acc_created_at := now |} ]})
    as Hsingle.
  { apply map_eq. intros i. apply option_eq. intros a.
    rewrite users_by_email_lookup. simpl.
    rewrite lookup_singleton_Some.
    destruct (decide (i = id)) as [->|Hne].
    - rewrite lookup_insert_eq. split; [intros [[= <-] _]; done|].
      intros [_ <-]. done.
    - rewrite lookup_insert_ne by done. split.
      + intros [Hi Hea]. by destruct (Hno i a).
      + intros [? _]. done. }
  unfold first_by_email. rewrite Hsingle, map_to_list_singleton. simpl.
  by rewrite Hcmp.
Qed.

Lemma register_then_login_witness :
  let st' := (@register toy_crypto ana_body 7%N "salt" 0 0 demo_server).2 in
  @login toy_crypto
    {| login_email := Some "ana@mendoza.family";
       login_password := Some "demo123" |} 5 st' =
    Sent {| lr_id := 7%N; lr_email := "ana@mendoza.family";
            lr_name := "Ana Mendoza"; lr_tier := Some 4;
            lr_familyId := Some 100%N; lr_token := "token-of-7" |}.
Proof.
  intros st'.
  apply (@register_then_login toy_crypto ana_body 7%N "salt" 0 0 demo_server
           {| rr_id := 7%N; rr_email := "ana@mendoza.family";
              rr_name := "Ana Mendoza"; rr_tier := Some 4;
              rr_token := "token-of-7" |} st' "demo123" 5);
    reflexivity.
Defined.

(** With distinct emails on record, a login with an email and a password
    succeeds exactly for the account of that email whose hash
    [bcrypt.compare] accepts; an unknown email and a wrong password get
    the same 401 [Invalid credentials]. *)
Theorem login_outcome `{Crypto} e pw iat st :
  emails_unique st →
  let b := {| login_email := Some e; login_password := Some pw |} in
  (∀ id acc,
     srv_users st !! id = Some acc → acc_email acc = e →
     bcrypt_compare pw (acc_password_hash acc) = true →
     login b iat st =
       Sent {| lr_id := id; lr_email := e; lr_name := acc_name acc;
               lr_tier := acc_tier acc; lr_familyId := acc_family_id acc;
               lr_token := jwt_sign id iat |}) ∧
  ((∀ id acc, srv_users st !! id = Some acc → acc_email acc ≠ e) →
   login b iat st = Failed 401 "Invalid credentials") ∧
  (∀ id acc,
     srv_users st !! id = Some acc → acc_email acc = e →
     bcrypt_compare pw (acc_password_hash acc) = false →
     login b iat st = Failed 401 "Invalid credentials").
Proof.
  intros Hu b. unfold login, b. simpl. repeat split.
  - intros id acc Hid <- Hcmp.
    rewrite (first_by_email_unique st id acc) by done. by rewrite Hcmp.
  - intros Hno. by rewrite first_by_email_None.
  - intros id acc Hid <- Hcmp.
    rewrite (first_by_email_unique st id acc) by done. by rewrite Hcmp.
Qed.

Lemma demo_server_emails_unique : emails_unique demo_server.
Proof.
  intros i j a b Hi Hj _. simpl in Hi, Hj.
  apply lookup_singleton_Some in Hi as [<- _].
  by apply lookup_singleton_Some in Hj as [<- _].
Qed.

Lemma login_outcome_witness :
  @login toy_crypto
    {| login_email := Some "carlos@mendoza.family";
       login_password := Some "wrong" |} 5 demo_server =
    Failed 401 "Invalid credentials" ∧
  @login toy_crypto
    {| login_email := Some "nobody@example.org";
       login_password := Some "wrong" |} 5 demo_server =
    Failed 401 "Invalid credentials".
Proof.
  split.
  - refine (proj2 (proj2 (@login_outcome toy_crypto "carlos@mendoza.family"
                            "wrong" 5 demo_server demo_server_emails_unique))
              1%N _ _ _ _); reflexivity.
  - apply (proj1 (proj2 (@login_outcome toy_crypto "nobody@example.org"
                            "wrong" 5 demo_server demo_server_emails_unique))).
    intros id acc Hid. simpl in Hid.
    apply lookup_singleton_Some in Hid as [_ <-]. discriminate.
Defined.

(** The token a login returns, sent back as [Bearer <token>], is accepted
    while [jwt.verify] accepts it, and [req.user] is then the account that
    logged in. *)
Theorem login_then_authenticate `{Crypto} b iat st r now :
  login b iat st = Sent r →
  jwt_verify (lr_token r) now = Some (lr_id r) →
  has_space (lr_token r) = false → lr_token r ≠ EmptyString →
  authenticate (Some ("Bearer " +:+ lr_token r)) now st =
    Sent {| user_id := lr_id r; user_family_id := lr_familyId r;
            user_tier := lr_tier r |}.
Proof.
  intros Hl Hv Hsp Hne.
  rewrite authenticate_bearer_token, Hv by done.
  unfold login in Hl.
  destruct (match login_email b with
            | Some e => first_by_email st e | None => None end)
    as [[id acc]|] eqn:Hf; [|done].
  destruct (login_password b) as [pw|]; [|done].
  destruct (bcrypt_compare pw (acc_password_hash acc)); [|done].
  injection Hl as <-. simpl in *.
  destruct (login_email b) as [e|]; [|done].
  apply first_by_email_Some in Hf as [Hid _].
  by rewrite Hid.
Qed.

Lemma login_then_authenticate_witness :
  let st := (@register toy_crypto ana_body 7%N "salt" 0 0 demo_server).2 in
  @authenticate toy_crypto (Some "Bearer token-of-7") 9 st =
    Sent {| user_id := 7%N; user_family_id := Some 100%N;
            user_tier := Some 4 |}.
Proof.
  intros st.
  apply (@login_then_authenticate toy_crypto
           {| login_email := Some "ana@mendoza.family";
              login_password := Some "demo123" |} 5 st
           {| lr_id := 7%N; lr_email := "ana@mendoza.family";
              lr_name := "Ana Mendoza"; lr_tier := Some 4;
              lr_familyId := Some 100%N; lr_token := "token-of-7" |} 9);
    try reflexivity.
  discriminate.
Defined.

(** ** Assets *)

Lemma insert_asset_Some id fam b now st a x st' :
  insert_asset id fam b now st = Some (a, x, st') →
  assets (srv_db st) !! id = None ∧
  fam = Some (asset_family_id a) ∧
  is_Some (srv_families st !! asset_family_id a) ∧
  ab_name b = Some (asset_name a) ∧
  assets (srv_db st') = <[id := a]> (assets (srv_db st)) ∧
  reservations (srv_db st') = reservations (srv_db st) ∧
  srv_users st' = srv_users st ∧
  srv_families st' = srv_families st ∧
  srv_asset_extra st' = <[id := x]> (srv_asset_extra st) ∧
  is_uuid id = true.
Proof.
  unfold insert_asset. intros Hi.
  destruct (assets (srv_db st) !! id) eqn:Hid; [done|].
  destruct fam as [f|]; [|done].
  destruct (ab_name b) as [n|]; [|done].
  destruct (ab_type b) as [ty|]; [|done].
  destruct (asset_type_of_string ty) as [k|]; [|done].
  match type of Hi with
  | (if ?c then _ else _) = _ => destruct c eqn:Hcond; [|done]
  end.
  rewrite !andb_true_iff in Hcond.
  destruct Hcond as (((((Hu & Hf) & _) & _) & _) & _).
  injection Hi as <- <- <-. simpl.
  apply bool_decide_eq_true in Hf. done.
Qed.

Lemma createAsset_Sent u b id now st i a x st' :
  createAsset u b id now st = (Sent (i, a, x), st') →
  i = id ∧ tier_above_1 (user_tier u) = false ∧
  insert_asset id (user_family_id u) b now st = Some (a, x, st').
Proof.
  unfold createAsset. intros Hc.
  destruct (tier_above_1 (user_tier u)); [done|].
  destruct (insert_asset _ _ _ _ _) as [[[a' x'] st'']|]; [|done].
  by injection Hc as <- <- <- <-.
Qed.

Lemma createAsset_Failed u b id now st c m st' :
  createAsset u b id now st = (Failed c m, st') → st' = st.
Proof.
  unfold createAsset. intros Hc.
  destruct (tier_above_1 (user_tier u)); [by injection Hc|].
  destruct (insert_asset _ _ _ _ _) as [[[a' x'] st'']|]; [done|].
  by injection Hc.
Qed.

(** Creating an asset is refused with 403 exactly for a tier above 1: a
    member whose tier is null is let through, as is tier 1. *)
Theorem createAsset_forbidden_iff u b id now st :
  (∃ m, (createAsset u b id now st).1 = Failed 403 m) ↔
  ∃ t, user_tier u = Some t ∧ 1 < t.
Proof.
  unfold createAsset, tier_above_1. split.
  - intros [m Hm]. destruct (user_tier u) as [t|].
    + destruct (Z.gtb_spec t 1); [eauto with lia|].
      destruct (insert_asset _ _ _ _ _) as [[[??]?]|]; done.
    + destruct (insert_asset _ _ _ _ _) as [[[??]?]|]; done.
  - intros (t & -> & Ht). destruct (Z.gtb_spec t 1); [eauto | lia].
Qed.

(** A successful creation adds exactly one asset, under an unused id and
    in the creator's own family, and touches no reservation and no
    account; a failed one changes nothing. *)
Theorem createAsset_one_asset_or_none u b id now st :
  match createAsset u b id now st with
  | (Sent (i, a, x), st') =>
      i = id ∧
      assets (srv_db st) !! id = None ∧
      user_family_id u = Some (asset_family_id a) ∧
      assets (srv_db st') = <[id := a]> (assets (srv_db st)) ∧
      reservations (srv_db st') = reservations (srv_db st) ∧
      srv_users st' = srv_users st ∧
      srv_families st' = srv_families st ∧
      srv_asset_extra st' = <[id := x]> (srv_asset_extra st)
  | (Failed _ _, st') => st' = st
  end.
Proof.
  destruct (createAsset u b id now st) as [[[[i a] x]|c m] st'] eqn:Hc.
  - apply createAsset_Sent in Hc as (-> & _ & Hi).
    apply insert_asset_Some in Hi
      as (Hid & Hfam & _ & _ & Ha & Hr & Hu & Hf & Hx & _).
    done.
  - by eapply createAsset_Failed.
Qed.

(** Once created, the asset can be read and reserved by every member of
    the creator's family, and is not found by anyone else. *)
Theorem created_asset_is_family_scoped u b id now st a x st' v :
  createAsset u b id now st = (Sent (id, a, x), st') →
  (user_family_id v = user_family_id u →
   getAsset v id st' = Sent (id, a, Some x) ∧
   assetResult (srv_db st') id (user_family_id v) = Some a) ∧
  (user_family_id v ≠ user_family_id u →
   getAsset v id st' = Failed 404 "Asset not found" ∧
   ∀ rq, req_user rq = v → assetId rq = id →
         createReservation rq (srv_db st') =
           (Error 404 "Asset not found", srv_db st')).
Proof.
  intros Hc. apply createAsset_Sent in Hc as (_ & _ & Hi).
  apply insert_asset_Some in Hi
    as (_ & Hfam & _ & _ & Ha & _ & _ & _ & Hx & Huuid).
  assert (∀ w, assetResult (srv_db st') id w =
               if decide (Some (asset_family_id a) = w) then Some a else None)
    as Hres.
  { intros w. unfold assetResult. by rewrite Ha, lookup_insert_eq. }
  split.
  - intros Hv. unfold getAsset.
    rewrite Hres, Hv, Hfam, decide_True by done.
    by rewrite Hx, lookup_insert_eq.
  - intros Hv.
    assert (assetResult (srv_db st') id (user_family_id v) = None) as Hn.
    { rewrite Hres, decide_False; [done | congruence]. }
    split.
    + unfold getAsset. by rewrite Hn, Huuid.
    + intros rq <- <-. by apply create_not_found.
Qed.

(** Reading an asset and reserving it apply one ownership rule: the read
    answers 404 exactly when a reservation request of that user for that
    asset does. *)
Theorem getAsset_404_iff_reservation_404 rq st :
  getAsset (req_user rq) (assetId rq) st = Failed 404 "Asset not found" ↔
  createReservation rq (srv_db st) =
    (Error 404 "Asset not found", srv_db st).
Proof.
  unfold getAsset. split.
  - intros Hg.
    destruct (assetResult _ _ _) eqn:Ha; [done|].
    destruct (is_uuid (assetId rq)) eqn:Hu; [|done].
    by apply create_not_found.
  - intros Hc.
    destruct (createReservation_outcome rq (srv_db st)) as [Hn Hu| | | | |];
      try done.
    by rewrite Hn, Hu.
Qed.

(** ** Sessions *)

(** What one action does to the two tables of [db]: the reservations
    change only through the reservation handlers, the assets only by
    gaining one. *)
Lemma perform_tables `{Crypto} a st :
  (reservations (srv_db (perform a st)) = reservations (srv_db st) ∧
   (assets (srv_db (perform a st)) = assets (srv_db st) ∨
    ∃ id x, assets (srv_db st) !! id = None ∧
            assets (srv_db (perform a st)) = <[id := x]> (assets (srv_db st))))
  ∨ ∃ o, a = DoReservation o ∧ srv_db (perform a st) = exec o (srv_db st).
Proof.
  destruct a as [b id salt now iat|u b id now|o]; simpl.
  - left.
    destruct (register b id salt now iat st) as [[r|c m] st'] eqn:Hr; simpl.
    + apply register_Sent in Hr as (e & n & pw & _ & _ & _ & _ & _ & -> & _).
      eauto.
    + apply register_Failed in Hr as [-> _]. eauto.
  - left.
    destruct (createAsset u b id now st) as [[[[i a] x]|c m] st'] eqn:Hc;
      simpl.
    + apply createAsset_Sent in Hc as (_ & _ & Hi).
      apply insert_asset_Some in Hi as (Hid & _ & _ & _ & Ha & Hr & _).
      eauto 6.
    + apply createAsset_Failed in Hc as ->. eauto.
  - right. eauto.
Qed.

Lemma exec_assets o d : assets (exec o d) = assets d.
Proof.
  destruct o as [rq|cq]; simpl.
  - by destruct (createReservation_outcome rq d).
  - unfold cancelReservation.
    destruct (reservations d !! cancel_id cq);
      [by case_decide | by destruct (is_uuid (cancel_id cq))].
Qed.

Lemma exec_keeps_assets_of_reservations o d :
  reservations_have_assets d → reservations_have_assets (exec o d).
Proof.
  intros Hinv i r. rewrite exec_assets.
  destruct o as [rq|cq]; simpl.
  - destruct (createReservation_outcome rq d) as [| | | | |Ha Hc Hd Hid _ _ _];
      simpl; try apply Hinv.
    destruct (decide (i = uuidv4 rq)) as [->|Hne].
    + rewrite lookup_insert_eq. intros [= <-]. simpl.
      apply assetResult_Some in Ha as (row & -> & _). eauto.
    + rewrite lookup_insert_ne by done. apply Hinv.
  - unfold cancelReservation.
    destruct (reservations d !! cancel_id cq) as [r0|] eqn:Hr0;
      [|destruct (is_uuid (cancel_id cq)); apply Hinv].
    case_decide; [|apply Hinv]. simpl.
    destruct (decide (i = cancel_id cq)) as [->|Hne].
    + rewrite lookup_insert_eq. intros [= <-]. simpl. by eapply Hinv.
    + rewrite lookup_insert_ne by done. apply Hinv.
Qed.

Lemma exec_keeps_statuses o d :
  only_confirmed_or_cancelled d → only_confirmed_or_cancelled (exec o d).
Proof.
  intros Hinv i r.
  destruct o as [rq|cq]; simpl.
  - destruct (createReservation_outcome rq d) as [| | | | |Ha Hc Hd Hid _ _ _];
      simpl; try apply Hinv.
    destruct (decide (i = uuidv4 rq)) as [->|Hne].
    + rewrite lookup_insert_eq. intros [= <-]. by left.
    + rewrite lookup_insert_ne by done. apply Hinv.
  - unfold cancelReservation.
    destruct (reservations d !! cancel_id cq) as [r0|] eqn:Hr0;
      [|destruct (is_uuid (cancel_id cq)); apply Hinv].
    case_decide; [|apply Hinv]. simpl.
    destruct (decide (i = cancel_id cq)) as [->|Hne].
    + rewrite lookup_insert_eq. intros [= <-]. by right.
    + rewrite lookup_insert_ne by done. apply Hinv.
Qed.

Lemma perform_keeps_invariants `{Crypto} a st :
  no_double_booking sql_overlap (srv_db st) ∧
  reservations_have_assets (srv_db st) ∧
  only_confirmed_or_cancelled (srv_db st) →
  no_double_booking sql_overlap (srv_db (perform a st)) ∧
  reservations_have_assets (srv_db (perform a st)) ∧
  only_confirmed_or_cancelled (srv_db (perform a st)).
Proof.
  intros (Hb & Ha & Hs).
  destruct (perform_tables a st) as [[Hr Hassets]|(o & -> & Ho)].
  - split; [|split].
    + intros i j r1 r2 Hij. rewrite Hr. by apply Hb.
    + intros i r. rewrite Hr. intros Hi.
      destruct Hassets as [->|(id & x & Hid & ->)]; [by eapply Ha|].
      apply lookup_insert_is_Some'. right. by eapply Ha.
    + intros i r. rewrite Hr. apply Hs.
  - rewrite Ho.
    split; [by apply exec_preserves|].
    split; [by apply exec_keeps_assets_of_reservations
           | by apply exec_keeps_statuses].
Qed.

Lemma perform_all_keeps_invariants `{Crypto} l st :
  reservations (srv_db st) = ∅ →
  no_double_booking sql_overlap (srv_db (perform_all l st)) ∧
  reservations_have_assets (srv_db (perform_all l st)) ∧
  only_confirmed_or_cancelled (srv_db (perform_all l st)).
Proof.
  intros Hempty.
  assert (no_double_booking sql_overlap (srv_db st) ∧
          reservations_have_assets (srv_db st) ∧
          only_confirmed_or_cancelled (srv_db st)) as Hinv.
  { repeat split; intros i; intros; rewrite Hempty in *; done. }
  clear Hempty. revert st Hinv.
  induction l as [|a l IH]; intros st Hinv; [done|].
  simpl. by apply IH, perform_keeps_invariants.
Qed.

(** Whatever is registered, created, reserved and cancelled, in whatever
    order, starting without reservations: no two live reservations of one
    asset overlap in the sense of [OVERLAPS]. *)
Theorem session_no_double_booking `{Crypto} l st :
  reservations (srv_db st) = ∅ →
  no_double_booking sql_overlap (srv_db (perform_all l st)).
Proof. intros He. by apply perform_all_keeps_invariants. Qed.

Lemma session_no_double_booking_witness :
  no_double_booking sql_overlap
    (srv_db (@perform_all toy_crypto demo_session demo_server)).
Proof.
  apply (@session_no_double_booking toy_crypto demo_session demo_server).
  reflexivity.
Defined.

(** In such a session every reservation on record is of an asset on
    record: the ownership check of createReservation does the work of the
    foreign key. *)
Theorem session_reservations_have_assets `{Crypto} l st :
  reservations (srv_db st) = ∅ →
  reservations_have_assets (srv_db (perform_all l st)).
Proof. intros He. by apply perform_all_keeps_invariants. Qed.

Lemma session_reservations_have_assets_witness :
  reservations_have_assets
    (srv_db (@perform_all toy_crypto demo_session demo_server)).
Proof.
  apply (@session_reservations_have_assets toy_crypto demo_session
           demo_server).
  reflexivity.
Defined.

Lemma current_reservation_None st now aid :
  only_confirmed_or_cancelled (srv_db st) →
  current_reservation st now aid = None.
Proof.
  intros Hs. unfold current_reservation.
  assert (filter (λ kv : N * reservation, occupies st now aid kv.2 = true)
            (reservations (srv_db st)) = ∅) as ->.
  { apply map_eq. intros i. rewrite lookup_empty.
    apply map_lookup_filter_None_2. right. intros r Hi. simpl.
    apply not_true_iff_false. unfold occupies.
    destruct (Hs i r Hi) as [Hr|Hr]; rewrite Hr.
    - rewrite (bool_decide_eq_false_2 (confirmed = active)) by done.
      rewrite andb_false_r. done.
    - rewrite (bool_decide_eq_false_2 (cancelled = active)) by done.
      rewrite andb_false_r. done. }
  by rewrite map_to_list_empty.
Qed.

(** No handler writes the status ['active'], so in such a session
    [GET /api/assets] reports every asset as available, at every time and
    to every user, booked or not. *)
Theorem session_assets_never_occupied `{Crypto} l st u now id s :
  reservations (srv_db st) = ∅ →
  listed_status u now (perform_all l st) !! id = Some s →
  s = available.
Proof.
  intros He. unfold listed_status. rewrite map_lookup_imap.
  destruct (assets (srv_db (perform_all l st)) !! id) as [a|]; [|done].
  simpl. case_decide; [|done].
  rewrite current_reservation_None; [by intros [= <-]|].
  by apply perform_all_keeps_invariants.
Qed.

(** The jet is booked from day 11 to day 13 and listed as available on
    day 12. *)
Lemma session_assets_never_occupied_witness :
  let st := @perform_all toy_crypto demo_session demo_server in
  reservations (srv_db st) !! 8%N = Some (new_row (booking carlos 8%N 11 13)) ∧
  listed_status carlos (day 12) st !! 10%N = Some available ∧
  ∀ s, listed_status carlos (day 12) st !! 10%N = Some s → s = available.
Proof.
  intros st. split; [reflexivity|]. split; [reflexivity|].
  intros s.
  apply (@session_assets_never_occupied toy_crypto demo_session demo_server
           carlos (day 12) 10%N s).
  reflexivity.
Defined.

(** ** Listing reservations *)

Lemma join_row_id wu st i r row : join_row wu st i r = Some row → j_id row = i.
Proof.
  unfold join_row. intros Hj.
  destruct (assets (srv_db st) !! res_asset_id r); [|done].
  destruct wu; [destruct (srv_users st !! res_user_id r); [|done]|];
    by injection Hj as <-.
Qed.

Lemma select_lookup wu query params now st i row :
  select wu query params now st !! i = Some row ↔
  ∃ r, reservations (srv_db st) !! i = Some r ∧
       join_row wu st i r = Some row ∧
       forallb (holds params now row) query = true.
Proof.
  unfold select. rewrite map_lookup_filter_Some, map_lookup_imap. simpl.
  split.
  - intros [Hj Hq].
    destruct (reservations (srv_db st) !! i) as [r|]; [|done]. eauto.
  - intros (r & -> & Hj & Hq). done.
Qed.

Lemma elem_of_order_by_start_asc rows row :
  row ∈ order_by_start_asc rows ↔ ∃ i, rows !! i = Some row.
Proof.
  unfold order_by_start_asc. rewrite merge_sort_Permutation.
  rewrite list_elem_of_fmap. split.
  - intros ([i x] & -> & Hin). apply elem_of_map_to_list in Hin. eauto.
  - intros [i Hi]. exists (i, row). by rewrite elem_of_map_to_list.
Qed.

Lemma elem_of_order_by_start_desc rows row :
  row ∈ order_by_start_desc rows ↔ ∃ i, rows !! i = Some row.
Proof.
  unfold order_by_start_desc. rewrite merge_sort_Permutation.
  rewrite list_elem_of_fmap. split.
  - intros ([i x] & -> & Hin). apply elem_of_map_to_list in Hin. eauto.
  - intros [i Hi]. exists (i, row). by rewrite elem_of_map_to_list.
Qed.

(** A row is selected exactly when it is the join of a reservation on
    record and passes the conjuncts. *)
Lemma elem_of_select wu query params now st row :
  (∃ i, select wu query params now st !! i = Some row) ↔
  ∃ r, reservations (srv_db st) !! j_id row = Some r ∧
       join_row wu st (j_id row) r = Some row ∧
       forallb (holds params now row) query = true.
Proof.
  split.
  - intros [i Hi]. apply select_lookup in Hi as (r & Hr & Hj & Hq).
    apply join_row_id in Hj as Hid. subst i. eauto.
  - intros (r & Hr & Hj & Hq). exists (j_id row).
    apply select_lookup. eauto.
Qed.

#[global] Instance starts_no_later_total : Total starts_no_later.
Proof. intros x y. unfold starts_no_later. lia. Qed.

#[global] Instance starts_no_later_flip_total : Total (flip starts_no_later).
Proof. intros x y. unfold flip, starts_no_later. lia. Qed.

Lemma status_name_inj s1 s2 : status_name s1 = status_name s2 → s1 = s2.
Proof. by destruct s1, s2. Qed.

(** The conjuncts, with the parameters bound to their placeholders, say
    what the filters say. *)
Lemma reservations_sql_holds u q now row :
  forallb (holds (reservations_sql u q).2 now row) (reservations_sql u q).1
    = true
  ↔ reservations_filter u q now row.
Proof.
  unfold reservations_sql, reservations_filter, truthy.
  destruct q as [qa qs qu]; simpl.
  destruct (user_family_id u) as [f|];
    destruct qa as [x|];
    [destruct qs as [s|]; [destruct (decide (s = EmptyString))|]..];
    destruct (decide (qu = Some "true"));
    simpl; unfold holds; simpl;
    rewrite ?andb_true_r, ?andb_true_iff, ?bool_decide_eq_true, ?Z.leb_le;
    (split;
     [ intros Hl; repeat split; intros; simplify_eq; try done;
       intuition (subst; done)
     | intros (Hf & Ha & Hs & Hu); simplify_eq; repeat split; eauto ]).
Qed.

Lemma is_join_select wu query params now st row :
  (∃ i, select wu query params now st !! i = Some row) ↔
  is_join wu st row ∧ forallb (holds params now row) query = true.
Proof.
  rewrite elem_of_select. unfold is_join. split.
  - intros (r & ? & ? & ?). eauto.
  - intros [(r & ? & ?) ?]. eauto.
Qed.

Lemma listReservations_elem u q now st row :
  row ∈ listReservations u q now st ↔
  is_join true st row ∧ reservations_filter u q now row.
Proof.
  unfold listReservations.
  pose proof (reservations_sql_holds u q now row) as Hsql.
  destruct (reservations_sql u q) as [query params]. simpl in Hsql.
  by rewrite elem_of_order_by_start_asc, is_join_select, Hsql.
Qed.


Lemma calendar_sql_holds u q now row :
  forallb (holds (calendar_sql u q).2 now row) (calendar_sql u q).1 = true
  ↔ calendar_filter u q row.
Proof.
  unfold calendar_sql, calendar_filter, inclusive_overlap.
  destruct q as [qs qe qa]; simpl.
  assert (∀ s, negb (bool_decide (status_name s = "cancelled")) = true
               ↔ s ≠ cancelled) as Hst.
  { intros s. rewrite negb_true_iff, bool_decide_eq_false.
    by destruct s. }
  destruct (user_family_id u) as [f|];
    destruct qs as [s|]; destruct qe as [e|]; destruct qa as [x|];
    simpl; unfold holds; simpl;
    rewrite ?andb_false_r, ?andb_true_r, ?andb_true_iff, ?bool_decide_eq_true,
      ?Hst, ?Z.leb_le;
    (split;
     [ intros Hl; try done; destruct_and!;
       (split; [congruence|]); (split; [done|]);
       (split; [eexists _, _; eauto | intros; simplify_eq; done])
     | intros (Hf & Hc & (s' & e' & Hs & He & Ho1 & Ho2) & Ha);
       simplify_eq; repeat split; eauto ]).
Qed.

Lemma calendar_elem u q now st ev :
  ev ∈ calendar u q now st ↔
  ∃ row, ev = event_of row ∧ is_join true st row ∧ calendar_filter u q row.
Proof.
  unfold calendar.
  pose proof (calendar_sql_holds u q now) as Hsql.
  destruct (calendar_sql u q) as [query params]. simpl in Hsql.
  rewrite list_elem_of_fmap.
  setoid_rewrite elem_of_order_by_start_asc.
  setoid_rewrite is_join_select. setoid_rewrite Hsql. done.
Qed.


Lemma myReservations_rows u now st row :
  row ∈ myReservations u now st ↔
  is_join false st row ∧ res_user_id (j_res row) = user_id u.
Proof.
  unfold myReservations.
  rewrite elem_of_order_by_start_desc, is_join_select.
  unfold holds. simpl.
  by rewrite andb_true_r, bool_decide_eq_true.
Qed.

Lemma is_join_false st row :
  is_join false st row ↔
  ∃ r a, reservations (srv_db st) !! j_id row = Some r ∧
         assets (srv_db st) !! res_asset_id r = Some a ∧
         row = {| j_id := j_id row; j_res := r; j_asset := a;
                  j_user_name := None |}.
Proof.
  unfold is_join, join_row. split.
  - intros (r & Hr & Hj).
    destruct (assets (srv_db st) !! res_asset_id r) as [a|] eqn:Ha; [|done].
    injection Hj as <-. eauto.
  - intros (r & a & Hr & Ha & ->). exists r. simpl. by rewrite Ha.
Qed.

Lemma is_join_true st row :
  is_join true st row ↔
  ∃ r a acc, reservations (srv_db st) !! j_id row = Some r ∧
             assets (srv_db st) !! res_asset_id r = Some a ∧
             srv_users st !! res_user_id r = Some acc ∧
             row = {| j_id := j_id row; j_res := r; j_asset := a;
                      j_user_name := Some (acc_name acc) |}.
Proof.
  unfold is_join, join_row. split.
  - intros (r & Hr & Hj).
    destruct (assets (srv_db st) !! res_asset_id r) as [a|] eqn:Ha; [|done].
    destruct (srv_users st !! res_user_id r) as [acc|] eqn:Hu; [|done].
    injection Hj as <-. eauto 7.
  - intros (r & a & acc & Hr & Ha & Hu & ->). exists r. simpl.
    by rewrite Ha, Hu.
Qed.

(** With every reservation's asset on record, the reservations a user
    can cancel are exactly those listed by [GET /api/reservations/mine]:
    the list is ordered by start, latest first, and holds the user's own
    reservations, cancelled ones included. *)
Theorem cancellable_iff_mine u id now t st :
  reservations_have_assets (srv_db st) →
  ((∃ row, row ∈ myReservations u now st ∧ j_id row = id) ↔
   ∃ r', (cancelReservation {| cancel_user := u; cancel_id := id;
                               cancel_now := t |} (srv_db st)).1
         = Json id r') ∧
  Sorted (flip starts_no_later) (myReservations u now st).
Proof.
  intros Hfk. split; [|apply Sorted_merge_sort, _].
  split.
  - intros (row & Hrow & <-).
    apply myReservations_rows in Hrow as [Hj Hu].
    apply is_join_false in Hj as (r & a & Hr & Ha & Heq).
    rewrite Heq in Hu. simpl in Hu.
    erewrite cancel_owned; [by eexists| done | done].
  - intros [r' Hc]. unfold cancelReservation in Hc. simpl in Hc.
    destruct (reservations (srv_db st) !! id) as [r|] eqn:Hr;
      [|by destruct (is_uuid id)].
    case_decide as Hu; [|done].
    destruct (Hfk id r Hr) as [a Ha].
    exists {| j_id := id; j_res := r; j_asset := a; j_user_name := None |}.
    split; [|done].
    apply myReservations_rows. split; [|done].
    apply is_join_false. simpl. eauto.
Qed.

(** A reservation that has just been admitted is listed at once: under
    [mine] for the user who made it and, that user having an account, in
    the family's list without filters. *)
Theorem admitted_reservation_is_listed rq st id row d' acc now :
  createReservation rq (srv_db st) = (Json id row, d') →
  srv_users st !! user_id (req_user rq) = Some acc →
  ∃ a,
    assets (srv_db st) !! assetId rq = Some a ∧
    {| j_id := id; j_res := row; j_asset := a; j_user_name := None |}
      ∈ myReservations (req_user rq) now (with_db st d') ∧
    {| j_id := id; j_res := row; j_asset := a;
       j_user_name := Some (acc_name acc) |}
      ∈ listReservations (req_user rq)
          {| q_assetId := None; q_status := None; q_upcoming := None |}
          now (with_db st d').
Proof.
  intros Hc Hacc.
  destruct (createReservation_outcome rq (srv_db st))
    as [| | | | |Ha Hconf Hd Hid _ _ _]; try done.
  injection Hc as <- <- <-.
  apply assetResult_Some in Ha as (a & Ha & Hfam).
  exists a. split; [done|]. split.
  - apply myReservations_rows. split; [|done].
    apply is_join_false. simpl. exists (new_row rq), a.
    by rewrite lookup_insert_eq.
  - apply listReservations_elem. split.
    + apply is_join_true. simpl. exists (new_row rq), a, acc.
      by rewrite lookup_insert_eq.
    + unfold reservations_filter. simpl. done.
Qed.

(** With the intervals in order, whatever blocks a request is on the
    calendar of the requested window: a reservation that the conflict
    query returns, its maker having an account, is among the events of
    [[start, end]] for that asset. *)
Theorem blocker_is_on_calendar rq st i r acc now :
  is_Some (assetResult (srv_db st) (assetId rq)
             (user_family_id (req_user rq))) →
  conflictResult (srv_db st) (assetId rq) (startDate rq) (endDate rq) !! i
    = Some r →
  startDate rq ≤ endDate rq →
  res_start_date r ≤ res_end_date r →
  srv_users st !! res_user_id r = Some acc →
  ∃ ev, ev ∈ calendar (req_user rq)
               {| c_start := Some (startDate rq); c_end := Some (endDate rq);
                  c_assetId := Some (assetId rq) |} now st ∧
        ev_id ev = i ∧ ev_start ev = res_start_date r ∧
        ev_end ev = res_end_date r.
Proof.
  intros Ha Hc Hrq Hr Hacc.
  apply conflict_query_lookup in Hc as [Hi Hrow].
  apply conflict_row_true in Hrow as (Hasset & Hstatus & Hov).
  apply overlaps_timestamp_inclusive in Hov; [|done..].
  apply assetResult_Some in Ha as (a & Ha & Hfam).
  exists (event_of {| j_id := i; j_res := r; j_asset := a;
                      j_user_name := Some (acc_name acc) |}).
  split; [|done].
  apply calendar_elem. eexists. split; [done|]. split.
  - apply is_join_true. simpl. exists r, a, acc. by rewrite Hasset.
  - unfold calendar_filter. simpl. repeat split; try done.
    + eexists _, _. done.
    + by intros x [= <-].
Qed.

(** ** Statistics *)

Lemma select_empty wu query params now st :
  (∀ row, is_join wu st row →
          forallb (holds params now row) query = false) →
  select wu query params now st = ∅.
Proof.
  intros Hno. apply map_eq. intros i. rewrite lookup_empty.
  destruct (select wu query params now st !! i) as [row|] eqn:Hi; [|done].
  assert (∃ j, select wu query params now st !! j = Some row) as Hex
    by eauto.
  apply is_join_select in Hex as [Hj Hq]. rewrite Hno in Hq; done.
Qed.

(** A requester without a family is shown zeros. *)
Theorem stats_without_family u now month_start st :
  user_family_id u = None →
  getStats u now month_start st =
    {| totalAssets := 0; monthlyReservations := 0;
       familyMembers := 0; upcomingReservations := 0 |}.
Proof.
  intros Hn. unfold getStats. rewrite Hn. simpl.
  rewrite !select_empty by done.
  assert (∀ A (f : N * A → option uuid) (m : gmap N A),
            filter (λ kv, same_family (f kv) None = true) m = ∅) as Hf.
  { intros A f m. apply map_eq. intros i. rewrite lookup_empty.
    apply map_lookup_filter_None_2. right. intros x _. simpl.
    by destruct (f (i, x)). }
  rewrite (Hf _ (λ kv, Some (asset_family_id kv.2))).
  rewrite (Hf _ (λ kv, acc_family_id kv.2)).
  by rewrite map_size_empty.
Qed.

Lemma join_row_ext wu st st' i r :
  assets (srv_db st') = assets (srv_db st) →
  srv_users st' = srv_users st →
  join_row wu st' i r = join_row wu st i r.
Proof. intros Ha Hu. unfold join_row. by rewrite Ha, Hu. Qed.

(** What a query selects once one reservation, of an asset on record, has
    been added under an unused id. *)
Lemma select_insert query params now st i r a :
  reservations (srv_db st) !! i = None →
  assets (srv_db st) !! res_asset_id r = Some a →
  let row := {| j_id := i; j_res := r; j_asset := a; j_user_name := None |} in
  select false query params now
    (with_db st (with_reservations (srv_db st)
                   (<[i := r]> (reservations (srv_db st)))))
  = if forallb (holds params now row) query
    then <[i := row]> (select false query params now st)
    else select false query params now st.
Proof.
  intros Hi Ha row. unfold select. simpl.
  rewrite (map_imap_ext _ (join_row false st) _
             (<[i:=r]> (reservations (srv_db st))));
    [|intros j; destruct (_ !! j); simpl;
      [by rewrite (join_row_ext _ st) | done]].
  rewrite (map_imap_insert_Some _ _ _ _ row)
    by (unfold join_row; by rewrite Ha).
  rewrite map_filter_insert. simpl.
  destruct (forallb (holds params now row) query) eqn:Hq.
  - by rewrite decide_True.
  - rewrite decide_False by done.
    rewrite delete_id; [done|]. by rewrite map_lookup_imap, Hi.
Qed.

(** An admitted reservation raises [upcomingReservations] by one for the
    members of the asset's family when it starts after the datastore's
    [NOW()], and leaves it as it was otherwise and for everyone else. *)
Theorem stats_upcoming_after_admission rq st id row d' v now month_start :
  createReservation rq (srv_db st) = (Json id row, d') →
  upcomingReservations (getStats v now month_start (with_db st d')) =
    (upcomingReservations (getStats v now month_start st)
     + if bool_decide (user_family_id v = user_family_id (req_user rq)
                       ∧ (now < startDate rq)%Z)
       then 1 else 0)%nat.
Proof.
  intros Hc.
  destruct (createReservation_outcome rq (srv_db st))
    as [| | | | |Ha Hconf Hd Hid _ _ _]; try done.
  injection Hc as <- <- <-.
  apply assetResult_Some in Ha as (a & Ha & Hfam).
  unfold getStats, upcomingReservations.
  rewrite (select_insert _ _ _ _ _ _ a) by done.
  unfold holds. simpl. rewrite andb_true_r.
  destruct (user_family_id v) as [f|] eqn:Hv; simpl.
  - destruct (decide (asset_family_id a = f)) as [<-|Hne].
    + rewrite bool_decide_eq_true_2 by done. simpl.
      destruct (Z.ltb_spec now (startDate rq)).
      * rewrite bool_decide_eq_true_2 by (split; [congruence | done]).
        rewrite map_size_insert_None; [lia|].
        apply map_lookup_filter_None_2. left.
        by rewrite map_lookup_imap, Hid.
      * rewrite bool_decide_eq_false_2 by lia. lia.
    + rewrite (bool_decide_eq_false_2 (asset_family_id a = f)) by done.
      simpl. rewrite bool_decide_eq_false_2; [lia|].
      intros [Heq _]. congruence.
  - rewrite bool_decide_eq_false_2; [lia|]. intros [Heq _]. congruence.
Qed.

(** ** From registration to a first booking *)

(** Whoever registers is, with the token of the reply, authenticated as a
    member at tier 4 of the family named in the body, which is not
    checked beyond its existence: that member reads the assets of the
    family, books at most 30 days ahead and is refused the creation of
    assets. *)
Theorem registered_member `{Crypto} b id salt now iat st r st' t ab aid :
  register b id salt now iat st = (Sent r, st') →
  jwt_verify (rr_token r) t = Some id →
  has_space (rr_token r) = false → rr_token r ≠ EmptyString →
  let u := {| user_id := id; user_family_id := reg_familyId b;
              user_tier := Some 4 |} in
  authenticate (Some ("Bearer " +:+ rr_token r)) t st' = Sent u ∧
  maxDaysAhead (user_tier u) = 30 ∧
  createAsset u ab aid t st' =
    (Failed 403 "Only tier 1 members can create assets", st') ∧
  (∀ i a, assets (srv_db st') !! i = Some a →
          reg_familyId b = Some (asset_family_id a) →
          getAsset u i st' = Sent (i, a, srv_asset_extra st' !! i)).
Proof.
  intros Hr Hv Hsp Hne u.
  apply register_Sent in Hr
    as (e & n & pw & He & Hn & Hpw & Hno & Hid & -> & ->).
  simpl in *. repeat split.
  - rewrite authenticate_bearer_token, Hv by done. simpl.
    by rewrite lookup_insert_eq.
  - intros i a Ha Hf. unfold getAsset, assetResult. simpl.
    rewrite Ha, Hf. by rewrite decide_True.
Qed.

Lemma registered_member_witness :
  @authenticate toy_crypto (Some "Bearer token-of-7") 9 ana_state = Sent ana ∧
  getAsset ana 10%N ana_state = Sent (10%N, jet, None).
Proof.
  pose proof (@registered_member toy_crypto ana_body 7%N "salt" 0 0
                demo_server
                {| rr_id := 7%N; rr_email := "ana@mendoza.family";
                   rr_name := "Ana Mendoza"; rr_tier := Some 4;
                   rr_token := "token-of-7" |}
                ana_state 9 villa_body 12%N eq_refl eq_refl eq_refl
                ltac:(discriminate)) as (Hauth & _ & _ & Hget).
  split; [exact Hauth|].
  exact (Hget 10%N jet eq_refl eq_refl).
Defined.

(** ** The properties above on the sample data *)

Lemma authenticate_ignores_scheme_witness :
  @authenticate toy_crypto (Some "Bearer token-of-7") 9 ana_state =
  @authenticate toy_crypto (Some "Basic token-of-7") 9 ana_state.
Proof.
  apply (@authenticate_ignores_scheme toy_crypto "Bearer" "Basic"
           "token-of-7" 9 ana_state); reflexivity.
Defined.

Lemma authenticate_bearer_witness :
  @authenticate toy_crypto (Some "Bearer token-of-7") 9 ana_state = Sent ana.
Proof.
  apply (@authenticate_bearer toy_crypto "token-of-7" 9 ana_state ana
           eq_refl ltac:(discriminate)).
  eexists 7%N, _. repeat split; reflexivity.
Defined.

Lemma authenticate_bare_header_witness :
  @authenticate toy_crypto (Some "token-of-7") 9 ana_state =
    Failed 401 "No token provided".
Proof.
  apply (@authenticate_bare_header toy_crypto "token-of-7" 9 ana_state).
  reflexivity.
Defined.

Lemma register_duplicate_email_witness :
  @register toy_crypto
    {| reg_email := Some "carlos@mendoza.family";
       reg_password := Some "x"; reg_name := Some "Impostor";
       reg_familyId := None |} 7%N "salt" 0 0 demo_server =
    (Failed 400 "Email already registered", demo_server).
Proof.
  eapply (@register_duplicate_email toy_crypto _ 7%N "salt" 0 0 demo_server
            1%N); reflexivity.
Defined.

Lemma register_keeps_emails_unique_witness : emails_unique ana_state.
Proof.
  apply (@register_keeps_emails_unique toy_crypto ana_body 7%N "salt" 0 0
           demo_server).
  apply demo_server_emails_unique.
Defined.

(** Juan, of the same family, reads the villa that Carlos created. *)
Lemma created_asset_is_family_scoped_witness :
  let st' := (createAsset carlos villa_body 11%N 0 demo_server).2 in
  ∃ a x, getAsset juan 11%N st' = Sent (11%N, a, Some x).
Proof.
  intros st'. eexists _, _.
  refine (proj1 (proj1 (created_asset_is_family_scoped carlos villa_body
                          11%N 0 demo_server _ _ st' juan eq_refl)
                   eq_refl)).
Defined.

Lemma demo_state_have_assets : reservations_have_assets (srv_db demo_state).
Proof.
  apply (@perform_all_keeps_invariants toy_crypto demo_session demo_server).
  reflexivity.
Qed.

(** Carlos can cancel reservation 8, which is on his list. *)
Lemma cancellable_iff_mine_witness :
  ∃ r', (cancelReservation {| cancel_user := carlos; cancel_id := 8%N;
                              cancel_now := day 2 |} (srv_db demo_state)).1
        = Json 8%N r'.
Proof.
  apply (proj1 (cancellable_iff_mine carlos 8%N 0 (day 2) demo_state
                  demo_state_have_assets)).
  exists {| j_id := 8%N; j_res := new_row (booking carlos 8%N 11 13);
            j_asset := jet; j_user_name := None |}.
  split; [|reflexivity].
  apply myReservations_rows. split; [|reflexivity].
  apply is_join_false. eexists _, _. repeat split; reflexivity.
Defined.

Lemma admitted_reservation_is_listed_witness :
  let rq := booking carlos 8%N 11 13 in
  ∃ a,
    assets (srv_db demo_server) !! assetId rq = Some a ∧
    {| j_id := 8%N; j_res := new_row rq; j_asset := a; j_user_name := None |}
      ∈ myReservations carlos 0
          (with_db demo_server (createReservation rq demo_db).2) ∧
    {| j_id := 8%N; j_res := new_row rq; j_asset := a;
       j_user_name := Some "Carlos Mendoza" |}
      ∈ listReservations carlos
          {| q_assetId := None; q_status := None; q_upcoming := None |}
          0 (with_db demo_server (createReservation rq demo_db).2).
Proof.
  intros rq.
  apply (admitted_reservation_is_listed rq demo_server 8%N (new_row rq)
           (createReservation rq demo_db).2 carlos_account 0);
    reflexivity.
Defined.

(** With the jet booked from day 11 to day 13, a request for days 12 to
    14 is blocked by reservation 8, which the calendar of those days
    shows. *)
Lemma blocker_is_on_calendar_witness :
  let rq := booking carlos 12%N 12 14 in
  ∃ ev, ev ∈ calendar carlos
               {| c_start := Some (day 12); c_end := Some (day 14);
                  c_assetId := Some 10%N |} 0 demo_state ∧
        ev_id ev = 8%N ∧ ev_start ev = day 11 ∧ ev_end ev = day 13.
Proof.
  intros rq.
  eapply (blocker_is_on_calendar rq demo_state 8%N
            (new_row (booking carlos 8%N 11 13)) _ 0).
  - vm_compute. eauto.
  - reflexivity.
  - vm_compute. discriminate.
  - vm_compute. discriminate.
  - reflexivity.
Defined.

Lemma stats_without_family_witness :
  getStats {| user_id := 5%N; user_family_id := None; user_tier := Some 4 |}
    0 0 demo_state =
    {| totalAssets := 0; monthlyReservations := 0;
       familyMembers := 0; upcomingReservations := 0 |}.
Proof. apply stats_without_family. reflexivity. Defined.

Lemma stats_upcoming_after_admission_witness :
  let rq := booking carlos 8%N 11 13 in
  upcomingReservations
    (getStats juan 0 0 (with_db demo_server (createReservation rq demo_db).2))
  = 1%nat.
Proof.
  intros rq.
  apply (stats_upcoming_after_admission rq demo_server 8%N (new_row rq)
           (createReservation rq demo_db).2 juan 0 0).
  reflexivity.
Defined.

(** ** Cancelling and booking again *)

(** Once a user has cancelled a reservation of theirs it blocks nothing:
    the rows the conflict query returns for any request are those it
    returned before, less the cancelled one. *)
Theorem cancel_frees_slot cq d r' a s e :
  (cancelReservation cq d).1 = Json (cancel_id cq) r' →
  conflictResult (cancelReservation cq d).2 a s e =
    delete (cancel_id cq) (conflictResult d a s e).
Proof.
  unfold cancelReservation. intros Hc.
  destruct (reservations d !! cancel_id cq) as [r|] eqn:Hr;
    [|by destruct (is_uuid (cancel_id cq))].
  case_decide; [|done]. simpl.
  apply map_eq. intros i. apply option_eq. intros x.
  rewrite lookup_delete_Some, !conflict_query_lookup. simpl.
  destruct (decide (i = cancel_id cq)) as [->|Hne].
  - rewrite lookup_insert_eq. split; [|by intros [? _]].
    intros [[= <-] Hrow]. apply conflict_row_true in Hrow as (_ & Hs & _).
    done.
  - rewrite lookup_insert_ne by done. intuition congruence.
Qed.

(** Carlos cancels reservation 8; nothing then blocks days 12 to 14. *)
Lemma cancel_frees_slot_witness :
  let cq := {| cancel_user := carlos; cancel_id := 8%N; cancel_now := day 2 |} in
  conflictResult (srv_db demo_state) 10%N (day 12) (day 14) !! 8%N
    = Some (new_row (booking carlos 8%N 11 13)) ∧
  conflictResult (cancelReservation cq (srv_db demo_state)).2
    10%N (day 12) (day 14) = ∅.
Proof.
  intros cq. split; [reflexivity|].
  rewrite (cancel_frees_slot cq (srv_db demo_state)
             (set_cancelled (day 2) (new_row (booking carlos 8%N 11 13)))
             10%N (day 12) (day 14) eq_refl).
  reflexivity.
Defined.

Lemma overlaps_timestamp_same s e : overlaps_timestamp s e s e = true.
Proof. unfold overlaps_timestamp. compare_cases; try reflexivity; lia. Qed.

(** A request for an asset and an interval that have just been admitted
    is refused with 409 when it is sent again, by whichever member of the
    family and whatever the order of the interval's ends. *)
Theorem repeated_request_conflicts rq d id row d' rq' :
  createReservation rq d = (Json id row, d') →
  assetId rq' = assetId rq →
  startDate rq' = startDate rq → endDate rq' = endDate rq →
  user_family_id (req_user rq') = user_family_id (req_user rq) →
  createReservation rq' d' =
    (Error 409 "Time slot conflicts with existing reservation", d').
Proof.
  intros Hc Ha Hs He Hf.
  destruct (createReservation_outcome rq d)
    as [| | | | |Hown Hconf Hd Hid _ _ _]; try done.
  injection Hc as <- <- <-.
  apply create_conflict.
  - rewrite Ha, Hf. unfold assetResult in *. done.
  - exists (uuidv4 rq), (new_row rq). simpl.
    rewrite lookup_insert_eq, Ha, Hs, He.
    repeat split; try done. apply overlaps_timestamp_same.
Qed.

Lemma repeated_request_conflicts_witness :
  let rq := booking carlos 8%N 11 13 in
  let rq' := booking juan 9%N 11 13 in
  createReservation rq' (createReservation rq demo_db).2 =
    (Error 409 "Time slot conflicts with existing reservation",
     (createReservation rq demo_db).2).
Proof.
  intros rq rq'.
  apply (repeated_request_conflicts rq demo_db 8%N (new_row rq)
           (createReservation rq demo_db).2 rq');
    reflexivity.
Defined.
